(** * oneanddone.tasks.models: tasks, attempts and their availability rules

    A shallow embedding of [oneanddone/tasks/models.py].  The database is a
    record of tables (finite maps from primary keys to rows), the wall clock
    is a sequence of readings consumed by [timezone_now], and every method
    that talks to the database or reads the clock is a computation in the
    monad [M] (state, with [None] for a raised exception). *)

From Stdlib Require Import ZArith QArith Qround Lia.
From stdpp Require Import base option list gmap fin_maps sorting strings pretty.

Local Open Scope Z_scope.

(** ** Dates and times *)

(** A [datetime] is a number of microseconds since the epoch; the calendar
    fields that the code touches are derived from it.  A [timedelta] is a
    number of microseconds as well. *)
Definition datetime := Z.
Definition timedelta := Z.

Definition MICROSECOND : Z := 1.
Definition SECOND : Z := 1000000.
Definition MINUTE : Z := 60 * SECOND.
Definition HOUR : Z := 60 * MINUTE.
Definition DAY : Z := 24 * HOUR.

Definition timedelta_days (days : Z) : timedelta := days * DAY.
Definition timedelta_seconds (s : Z) : timedelta := s * SECOND.

Definition dt_day (d : datetime) : Z := d / DAY.
Definition dt_hour (d : datetime) : Z := (d mod DAY) / HOUR.
Definition dt_minute (d : datetime) : Z := (d mod HOUR) / MINUTE.
Definition dt_second (d : datetime) : Z := (d mod MINUTE) / SECOND.
Definition dt_microsecond (d : datetime) : Z := d mod SECOND.

(** [datetime(day, hour, minute, second, microsecond)] *)
Definition mk_datetime (day h m s us : Z) : datetime :=
  day * DAY + h * HOUR + m * MINUTE + s * SECOND + us.

(** [d.replace(hour=0, minute=0, second=0)]: the microsecond field is not
    among the replaced ones and keeps its value. *)
Definition replace_hms0 (d : datetime) : datetime :=
  mk_datetime (dt_day d) 0 0 0 (dt_microsecond d).

(** ** Rows *)

Definition User := nat.

(** [TaskAttempt.STARTED = 0], [FINISHED = 1], [ABANDONED = 2], [CLOSED = 3]. *)
Inductive State := STARTED | FINISHED | ABANDONED | CLOSED.

Definition state_code (s : State) : Z :=
  match s with STARTED => 0 | FINISHED => 1 | ABANDONED => 2 | CLOSED => 3 end.

#[global] Instance State_eq_dec : EqDecision State.
Proof. solve_decision. Defined.

Record Task := mkTask {
  task_id : nat;
  task_name : string;
  is_draft : bool;
  is_invalid : bool;
  repeatable : bool;
  start_date : option datetime;
  end_date : option datetime }.

Record TaskAttempt := mkTaskAttempt {
  attempt_id : nat;
  user : option User;          (* null once the user is deleted *)
  task : nat;                  (* foreign key to Task *)
  state : State;
  requires_notification : bool;
  created : datetime;
  modified : datetime }.

Record TaskKeyword := mkTaskKeyword {
  keyword_task : nat;          (* foreign key to Task *)
  keyword_name : string;
  keyword_creator : User }.

(** ** The world: settings, clock and tables *)

Record World := mkWorld {
  TASK_ATTEMPT_EXPIRATION_DURATION : Z;   (* settings, in days *)
  clock : nat -> datetime;                (* successive readings of the clock *)
  ticks : nat;                            (* readings consumed so far *)
  task_table : gmap nat Task;
  attempt_table : gmap nat TaskAttempt;
  keyword_table : gmap nat TaskKeyword }.

Definition with_ticks (n : nat) (w : World) : World :=
  mkWorld (TASK_ATTEMPT_EXPIRATION_DURATION w) (clock w) n
          (task_table w) (attempt_table w) (keyword_table w).

Definition with_task_table (m : gmap nat Task) (w : World) : World :=
  mkWorld (TASK_ATTEMPT_EXPIRATION_DURATION w) (clock w) (ticks w)
          m (attempt_table w) (keyword_table w).

Definition with_attempt_table (m : gmap nat TaskAttempt) (w : World) : World :=
  mkWorld (TASK_ATTEMPT_EXPIRATION_DURATION w) (clock w) (ticks w)
          (task_table w) m (keyword_table w).

Definition with_keyword_table (m : gmap nat TaskKeyword) (w : World) : World :=
  mkWorld (TASK_ATTEMPT_EXPIRATION_DURATION w) (clock w) (ticks w)
          (task_table w) (attempt_table w) m.

(** ** The monad of database operations *)

Definition M (A : Type) : Type := World -> option (A * World).

Definition ret {A} (x : A) : M A := fun w => Some (x, w).

Definition bind {A B} (m : M A) (k : A -> M B) : M B :=
  fun w => match m w with
           | Some (x, w') => k x w'
           | None => None
           end.

Definition raise {A} : M A := fun _ => None.

Notation "'let*' x ':=' m 'in' k" := (bind m (fun x => k))
  (at level 10, x name, m at level 100, k at level 200, only parsing).

Definition value_of {A} (m : M A) (w : World) : option A := fst <$> m w.
Definition world_after {A} (m : M A) (w : World) : option World := snd <$> m w.

(** [django.utils.timezone.now()]: the next reading of the clock. *)
Definition timezone_now : M datetime :=
  fun w => Some (clock w (ticks w), with_ticks (S (ticks w)) w).

(** The reading that the next call of [timezone_now] returns. *)
Definition current_time (w : World) : datetime := clock w (ticks w).

(** ** Task.is_available *)

(** [x and y] where [x] is an optional datetime: a datetime is always true,
    [None] is false. *)
Definition and_date (x : option datetime) (y : datetime -> bool) : bool :=
  match x with
  | Some d => y d
  | None => false
  end.

Definition is_available (self : Task) : M bool :=
  if is_draft self || is_invalid self then ret false
  else
    let* now := timezone_now in
    ret (negb (and_date (end_date self) (fun e => now >? e)
               || and_date (start_date self) (fun s => now <? s))).

(** ** Query filters *)

(** A [Q] object of the ORM: lookups combined with [&], [|] and [~]. *)
Inductive django_Q (L : Type) : Type :=
| Q_leaf (l : L)
| Q_and (a b : django_Q L)
| Q_or (a b : django_Q L)
| Q_not (a : django_Q L).

Arguments Q_leaf {L} l.
Arguments Q_and {L} a b.
Arguments Q_or {L} a b.
Arguments Q_not {L} a.

Fixpoint Q_matches {L R : Type} (lookup : L -> R -> bool)
    (q : django_Q L) (row : R) : bool :=
  match q with
  | Q_leaf l => lookup l row
  | Q_and a b => Q_matches lookup a row && Q_matches lookup b row
  | Q_or a b => Q_matches lookup a row || Q_matches lookup b row
  | Q_not a => negb (Q_matches lookup a row)
  end.

(** [filter(k1=v1, k2=v2, ...)]: the conjunction of its keyword lookups. *)
Fixpoint Q_kwargs {L : Type} (first : L) (others : list L) : django_Q L :=
  match others with
  | [] => Q_leaf first
  | l :: ls => Q_and (Q_leaf first) (Q_kwargs l ls)
  end.

(** Lookups on [TaskAttempt] rows. *)
Inductive AttemptLookup :=
| K_task (pk : nat)                 (* task=<Task> *)
| K_user (u : User)                 (* user=<User> *)
| K_state (s : State)               (* state=s *)
| K_created__lte (d : datetime)     (* created__lte=d *)
| K_task__repeatable (b : bool).    (* task__repeatable=b, through the join *)

Definition attempt_lookup (w : World) (l : AttemptLookup) (a : TaskAttempt) : bool :=
  match l with
  | K_task pk => bool_decide (task a = pk)
  | K_user u => bool_decide (user a = Some u)
  | K_state s => bool_decide (state a = s)
  | K_created__lte d => created a <=? d
  | K_task__repeatable b =>
      match task_table w !! task a with
      | Some t => bool_decide (repeatable t = b)
      | None => false
      end
  end.

(** A [QuerySet] of attempts is lazy: it is the filter it was built with,
    and reads the table when it is evaluated. *)
Definition QuerySet := django_Q AttemptLookup.

Definition qs_filter (qs : QuerySet) (q : django_Q AttemptLookup) : QuerySet :=
  Q_and qs q.

Definition qs_hit (w : World) (qs : QuerySet) (a : TaskAttempt) : bool :=
  Q_matches (attempt_lookup w) qs a.

Definition qs_rows (w : World) (qs : QuerySet) : gmap nat TaskAttempt :=
  filter (fun kv => qs_hit w qs kv.2 = true) (attempt_table w).

(** [qs.exists()] *)
Definition qs_exists (qs : QuerySet) : M bool :=
  fun w => Some (negb (Nat.eqb (size (qs_rows w qs)) 0), w).

(** [qs.update(...)]: one statement over all matching rows; no row is
    loaded, no [save] runs, and the number of matched rows is returned. *)
Definition qs_update (qs : QuerySet) (f : TaskAttempt -> TaskAttempt) : M nat :=
  fun w =>
    Some (size (qs_rows w qs),
          with_attempt_table
            ((fun a => if qs_hit w qs a then f a else a) <$> attempt_table w) w).

(** [Meta.ordering = ['-modified']] *)
Definition newest_first (a b : TaskAttempt) : Prop := modified b <= modified a.

#[global] Instance newest_first_dec a b : Decision (newest_first a b).
Proof. unfold newest_first. apply _. Defined.

(** Iterating over a query set runs the query once and yields its rows in
    the model's ordering. *)
Definition qs_iter (qs : QuerySet) : M (list TaskAttempt) :=
  fun w => Some (merge_sort newest_first (snd <$> map_to_list (qs_rows w qs)), w).

(** [for x in l: body] *)
Fixpoint for_each {A : Type} (l : list A) (body : A -> M unit) : M unit :=
  match l with
  | [] => ret tt
  | x :: l' => let* _ := body x in for_each l' body
  end.

(** [state=CLOSED, requires_notification=True] *)
Definition close_fields (a : TaskAttempt) : TaskAttempt :=
  mkTaskAttempt (attempt_id a) (user a) (task a) CLOSED true (created a) (modified a).

Definition with_modified (d : datetime) (a : TaskAttempt) : TaskAttempt :=
  mkTaskAttempt (attempt_id a) (user a) (task a) (state a)
                (requires_notification a) (created a) d.

(** [TaskAttempt.objects.filter(...)] *)
Definition objects_filter (q : django_Q AttemptLookup) : QuerySet := q.

(** [self.taskattempt_set]: the attempts whose task is [self]. *)
Definition taskattempt_set (self : Task) : QuerySet := Q_leaf (K_task (task_id self)).

(** [attempt.task]: follows the foreign key; a dangling key raises. *)
Definition attempt_task (self : TaskAttempt) : M Task :=
  fun w => match task_table w !! task self with
           | Some t => Some (t, w)
           | None => None
           end.

(** Modelled from the spec: the [save] that [Task] inherits from
    [oneanddone.base.models] (not in src/) persists the row under the
    task's primary key. *)
Definition Model_save_task (self : Task) : M unit :=
  fun w => Some (tt, with_task_table (<[task_id self := self]> (task_table w)) w).

(** Modelled from the spec: the [save] that [TaskAttempt] inherits from
    [oneanddone.base.models] (not in src/) stamps [modified] with the
    current time and persists the row under the attempt's primary key. *)
Definition Model_save_attempt (self : TaskAttempt) : M unit :=
  let* now := timezone_now in
  fun w =>
    Some (tt, with_attempt_table
                (<[attempt_id self := with_modified now self]> (attempt_table w)) w).

(** ** Task *)

Definition Task_save (self : Task) : M unit :=
  let* _ := Model_save_task self in
  let* available := is_available self in
  if negb available then
    (* Close any open attempts *)
    let* _ := qs_update (qs_filter (taskattempt_set self) (Q_leaf (K_state STARTED)))
                        close_fields in
    ret tt
  else ret tt.

(** [self.keyword_set.all()]: the keywords whose task is [self]. *)
Definition keyword_set_all (self : Task) : M (list TaskKeyword) :=
  fun w =>
    Some (filter (fun kw => keyword_task kw = task_id self)
                 (snd <$> map_to_list (keyword_table w)), w).

Definition keywords_list (self : Task) : M string :=
  let* keywords := keyword_set_all self in
  ret (String.concat ", " (keyword_name <$> keywords)).

(** [self.keyword_set.all().delete()] *)
Definition keyword_set_delete (self : Task) : M unit :=
  fun w =>
    Some (tt, with_keyword_table
                (filter (fun kv => keyword_task kv.2 <> task_id self) (keyword_table w)) w).

(** [self.keyword_set.create(name=..., creator=...)]: a new row under a
    primary key that no row of the table has. *)
Definition keyword_set_create (self : Task) (name : string) (creator : User) : M unit :=
  fun w =>
    Some (tt, with_keyword_table
                (<[fresh (dom (keyword_table w)) := mkTaskKeyword (task_id self) name creator]>
                   (keyword_table w)) w).

Definition replace_keywords (self : Task) (keywords : list string) (creator : User) : M unit :=
  let* _ := keyword_set_delete self in
  for_each keywords (fun keyword =>
    if negb (Nat.eqb (String.length keyword) 0) then
      keyword_set_create self keyword creator
    else ret tt).

Definition is_available_to_user (self : Task) (user : User) : M bool :=
  let repeatable_filter :=
    Q_and (Q_not (Q_leaf (K_user user))) (Q_not (Q_leaf (K_state ABANDONED))) in
  let* available := is_available self in
  if available then
    if repeatable self then ret true
    else
      let* found := qs_exists (qs_filter (taskattempt_set self) repeatable_filter) in
      ret (negb found)
  else ret false.

Definition is_taken (self : Task) : M bool :=
  if negb (repeatable self) then
    qs_exists (qs_filter (taskattempt_set self) (Q_leaf (K_state STARTED)))
  else ret false.

Definition is_completed (self : Task) : M bool :=
  if negb (repeatable self) then
    qs_exists (qs_filter (taskattempt_set self) (Q_leaf (K_state FINISHED)))
  else ret false.

(** Lookups on [Task] rows, as [is_available_filter] names them (with the
    default, empty [prefix]). *)
Inductive TaskLookup :=
| K_is_draft (b : bool)
| K_is_invalid (b : bool)
| K_repeatable (b : bool)
| K_start_date__isnull (b : bool)
| K_start_date__lte (d : datetime)
| K_end_date__isnull (b : bool)
| K_end_date__gt (d : datetime)
| K_taskattempt_set__state (s : State).   (* some attempt on the task has state s *)

Definition task_lookup (w : World) (l : TaskLookup) (t : Task) : bool :=
  match l with
  | K_is_draft b => bool_decide (is_draft t = b)
  | K_is_invalid b => bool_decide (is_invalid t = b)
  | K_repeatable b => bool_decide (repeatable t = b)
  | K_start_date__isnull b => bool_decide (bool_decide (start_date t = None) = b)
  | K_start_date__lte d => and_date (start_date t) (fun s => s <=? d)
  | K_end_date__isnull b => bool_decide (bool_decide (end_date t = None) = b)
  | K_end_date__gt d => and_date (end_date t) (fun e => e >? d)
  | K_taskattempt_set__state s =>
      negb (Nat.eqb (size (qs_rows w (qs_filter (taskattempt_set t) (Q_leaf (K_state s))))) 0)
  end.

(** [Task.objects.filter(q)] keeps the rows that [q] matches. *)
Definition Task_matches (w : World) (q : django_Q TaskLookup) (t : Task) : bool :=
  Q_matches (task_lookup w) q t.

(** Return a Q object (queryset filter) that matches available tasks.
    [now] defaults to [timezone.now()]; if [allow_expired] is false, tasks
    past their end date are excluded. *)
Definition is_available_filter (now : option datetime) (allow_expired : bool)
    : M (django_Q TaskLookup) :=
  let pQ := @Q_leaf TaskLookup in
  let* now := match now with
              | Some d => ret d
              | None => timezone_now
              end in
  (* Use just the date to allow caching *)
  let now := replace_hms0 now in
  let q_filter :=
    Q_and (Q_and (pQ (K_is_draft false)) (pQ (K_is_invalid false)))
          (Q_or (pQ (K_start_date__isnull true)) (pQ (K_start_date__lte now))) in
  let q_filter :=
    if negb allow_expired then
      Q_and q_filter (Q_or (pQ (K_end_date__isnull true)) (pQ (K_end_date__gt now)))
    else q_filter in
  let q_filter :=
    Q_and q_filter
          (Q_or (pQ (K_repeatable true))
                (Q_and (Q_not (pQ (K_taskattempt_set__state STARTED)))
                       (Q_not (pQ (K_taskattempt_set__state FINISHED))))) in
  ret q_filter.

(** ** TaskAttempt *)

(** [time.struct_time]: the calendar fields down to the second (year, month
    and day are kept as one day number); there is no sub-second field. *)
Record struct_time := mk_struct_time {
  tm_day : Z;
  tm_hour : Z;
  tm_min : Z;
  tm_sec : Z }.

(** [d.timetuple()] *)
Definition timetuple (d : datetime) : struct_time :=
  mk_struct_time (dt_day d) (dt_hour d) (dt_minute d) (dt_second d).

(** [time.mktime(t)]: the fields read as local time, as seconds since the
    epoch.  The local zone is a fixed offset from UTC, in seconds.  Python's
    floats are modelled by exact rationals. *)
Definition mktime (utcoffset : Z) (t : struct_time) : Q :=
  inject_Z (tm_day t * 86400 + tm_hour t * 3600 + tm_min t * 60 + tm_sec t - utcoffset).

(** Rounding to the nearest integer, halves away from zero. *)
Definition round_half_away (x : Q) : Z :=
  if Qle_bool 0 x then Qfloor (x + (1 # 2)) else Qceiling (x - (1 # 2)).

(** [round(x, ndigits)] for [ndigits >= 0] (Python 2: to the closest
    multiple of [10 ** -ndigits], halves away from zero). *)
Definition py_round (x : Q) (ndigits : Z) : Q :=
  (inject_Z (round_half_away (x * inject_Z (10 ^ ndigits))) / inject_Z (10 ^ ndigits))%Q.

Definition attempt_length_in_minutes (utcoffset : Z) (self : TaskAttempt) : Q :=
  let start_seconds := mktime utcoffset (timetuple (created self)) in
  let end_seconds := mktime utcoffset (timetuple (modified self)) in
  py_round ((end_seconds - start_seconds) / 60)%Q 1.

(** [settings.TASK_ATTEMPT_EXPIRATION_DURATION] *)
Definition settings_TASK_ATTEMPT_EXPIRATION_DURATION : M Z :=
  fun w => Some (TASK_ATTEMPT_EXPIRATION_DURATION w, w).

(** Close any attempts for one-time tasks that have been open for over 30 days *)
Definition close_stale_onetime_attempts : M nat :=
  let* now := timezone_now in
  let* days := settings_TASK_ATTEMPT_EXPIRATION_DURATION in
  let compare_date := now - timedelta_days days in
  let expired_onetime_attempts :=
    objects_filter (Q_kwargs (K_state STARTED)
                             [K_created__lte compare_date; K_task__repeatable false]) in
  qs_update expired_onetime_attempts close_fields.

(** The body of the loop of [close_expired_task_attempts], with the counter
    [closed] as an accumulator. *)
Fixpoint close_expired_loop (open_attempts : list TaskAttempt) (closed : nat) : M nat :=
  match open_attempts with
  | [] => ret closed
  | attempt :: rest =>
      let* t := attempt_task attempt in
      let* available := is_available t in
      if negb available then
        let* _ := Model_save_attempt (close_fields attempt) in
        close_expired_loop rest (closed + 1)%nat
      else close_expired_loop rest closed
  end.

(** Close any attempts for tasks that have expired *)
Definition close_expired_task_attempts : M nat :=
  let open_attempts := objects_filter (Q_leaf (K_state STARTED)) in
  let* rows := qs_iter open_attempts in
  close_expired_loop rows 0%nat.


(** * Reading the model *)

(** What [is_available] computes from the task and one reading of the clock. *)
Definition available_at (now : datetime) (t : Task) : bool :=
  negb (is_draft t || is_invalid t)
  && negb (and_date (end_date t) (fun e => now >? e)
           || and_date (start_date t) (fun s => now <? s)).

(** The world in which [is_available] leaves its caller: one reading of the
    clock is consumed unless the flags already decide. *)
Definition after_is_available (t : Task) (w : World) : World :=
  if is_draft t || is_invalid t then w else with_ticks (S (ticks w)) w.

(** The window as the specification words it: [start_date] included,
    [end_date] excluded, an absent bound being no bound. *)
Definition in_half_open_window (now : datetime) (t : Task) : Prop :=
  (forall s, start_date t = Some s -> s <= now)
  /\ (forall e, end_date t = Some e -> now < e).

(** ** Sample data *)

(** A task whose window ends at the instant 100. *)
Definition ends_at_100 : Task := mkTask 1 "triage" false false false None (Some 100).

(** A world whose clock reads 100 and whose tables are empty. *)
Definition world_at_100 : World := mkWorld 30 (fun _ => 100) 0 ∅ ∅ ∅.

(** The filter that [is_available_to_user] builds for [user]: attempts of
    anyone else that are not abandoned. *)
Definition rival_filter (user : User) : django_Q AttemptLookup :=
  Q_and (Q_not (Q_leaf (K_user user))) (Q_not (Q_leaf (K_state ABANDONED))).

(** Whether that filter finds an attempt on the task. *)
Definition has_rival (w : World) (t : Task) (user : User) : bool :=
  negb (Nat.eqb (size (qs_rows w (qs_filter (taskattempt_set t) (rival_filter user)))) 0).

(** A one-time task with no dates, and a world in which user 7 has started it. *)
Definition one_time_task : Task := mkTask 1 "file a bug" false false false None None.

Definition started_by_7 : TaskAttempt := mkTaskAttempt 1 (Some 7%nat) 1 STARTED false 10 10.

Definition world_started_by_7 : World :=
  mkWorld 30 (fun _ => 100) 0 {[ 1%nat := one_time_task ]} {[ 1%nat := started_by_7 ]} ∅.

(** The same task when its only attempt was abandoned. *)
Definition abandoned_by_7 : TaskAttempt := mkTaskAttempt 1 (Some 7%nat) 1 ABANDONED false 10 20.

Definition world_abandoned_by_7 : World :=
  mkWorld 30 (fun _ => 100) 0 {[ 1%nat := one_time_task ]} {[ 1%nat := abandoned_by_7 ]} ∅.

(** The filter with which [Task.save] selects the open attempts of a task. *)
Definition open_attempts_of (t : Task) : QuerySet :=
  qs_filter (taskattempt_set t) (Q_leaf (K_state STARTED)).

(** A task marked invalid, and a world holding one attempt on it in each
    state (the task row still says valid: the save is about to happen). *)
Definition invalid_task : Task := mkTask 1 "file a bug" false true false None None.

Definition attempt_in (pk : nat) (s : State) : TaskAttempt :=
  mkTaskAttempt pk (Some 7%nat) 1 s false 10 20.

Definition world_four_attempts : World :=
  mkWorld 30 (fun _ => 100) 0 {[ 1%nat := one_time_task ]}
          (<[ 1%nat := attempt_in 1 STARTED ]>
             (<[ 2%nat := attempt_in 2 FINISHED ]>
                (<[ 3%nat := attempt_in 3 ABANDONED ]>
                   {[ 4%nat := attempt_in 4 CLOSED ]})))
          ∅.

(** The test that [close_stale_onetime_attempts] applies to a row: Started,
    created no later than the comparison date, on a one-time task. *)
Definition stale_at (w : World) (a : TaskAttempt) : bool :=
  bool_decide (state a = STARTED)
  && ((created a <=? current_time w - timedelta_days (TASK_ATTEMPT_EXPIRATION_DURATION w))
      && match task_table w !! task a with
         | Some t => bool_decide (repeatable t = false)
         | None => false
         end).

(** Day 40, a 30-day expiration, and three Started attempts on a one-time
    task, created 31 days, exactly 30 days and 29 days before. *)
Definition day (n : Z) : datetime := n * DAY.

Definition started_on (pk : nat) (d : datetime) : TaskAttempt :=
  mkTaskAttempt pk (Some 7%nat) 1 STARTED false d d.

Definition world_day_40 : World :=
  mkWorld 30 (fun _ => day 40) 0 {[ 1%nat := one_time_task ]}
          (<[ 1%nat := started_on 1 (day 9) ]>
             (<[ 2%nat := started_on 2 (day 10) ]>
                {[ 3%nat := started_on 3 (day 11) ]}))
          ∅.

(** ** Well-formed tables *)

(** Every attempt is stored under its own primary key, and its task exists
    (the foreign key is not dangling). *)
Definition wf_attempts (w : World) : Prop :=
  map_Forall (fun k a => attempt_id a = k /\ is_Some (task_table w !! task a))
             (attempt_table w).

(** Two worlds with the same settings, clock, tasks and keywords. *)
Definition same_setup (w w' : World) : Prop :=
  task_table w' = task_table w
  /\ keyword_table w' = keyword_table w
  /\ clock w' = clock w
  /\ TASK_ATTEMPT_EXPIRATION_DURATION w' = TASK_ATTEMPT_EXPIRATION_DURATION w.

(** The world that [Model_save_attempt] leaves. *)
Definition after_save_attempt (a : TaskAttempt) (w : World) : World :=
  with_attempt_table
    (<[attempt_id a := with_modified (current_time w) a]> (attempt_table w))
    (with_ticks (S (ticks w)) w).

(** What the sweep of [close_expired_task_attempts] from [w] to [w'] did with
    the open attempt [a]: at some reading [i] of the clock taken during the
    sweep the task of [a] was checked; if it was available then, the row is
    as before, and otherwise the row is closed and stamped. *)
Definition swept (w w' : World) (a : TaskAttempt) : Prop :=
  exists t i,
    task_table w !! task a = Some t
    /\ (ticks w <= i <= ticks w')%nat
    /\ ((available_at (clock w i) t = true
         /\ attempt_table w' !! attempt_id a = Some a)
        \/ (available_at (clock w i) t = false
            /\ exists j, (ticks w <= j <= ticks w')%nat
                 /\ attempt_table w' !! attempt_id a
                    = Some (with_modified (clock w j) (close_fields a)))).

(** The attempts that were Started in [w] and are Closed in [w']. *)
Definition closed_between (w w' : World) : gmap nat TaskAttempt :=
  filter (fun kv => state kv.2 = STARTED
                    /\ state <$> attempt_table w' !! kv.1 = Some CLOSED)
         (attempt_table w).

(** Two one-time tasks, the first expired since instant 50, with one open
    attempt each and a finished attempt on the first; the clock advances by
    one at every reading, starting from 100. *)
Definition expired_task : Task := mkTask 1 "triage" false false false None (Some 50).

Definition open_task : Task := mkTask 2 "review" false false false None None.

Definition world_two_tasks : World :=
  mkWorld 30 (fun n => 100 + Z.of_nat n) 0
          (<[ 1%nat := expired_task ]> {[ 2%nat := open_task ]})
          (<[ 1%nat := mkTaskAttempt 1 (Some 7%nat) 1 STARTED false 0 5 ]>
             (<[ 2%nat := mkTaskAttempt 2 (Some 8%nat) 2 STARTED false 0 7 ]>
                {[ 3%nat := mkTaskAttempt 3 (Some 9%nat) 1 FINISHED false 0 9 ]}))
          ∅.

(** The row that [replace_keywords] creates for a keyword. *)
Definition new_keyword (t : Task) (creator : User) (name : string) : TaskKeyword :=
  mkTaskKeyword (task_id t) name creator.

(** The body of the loop of [replace_keywords]. *)
Definition add_keyword (t : Task) (creator : User) (keyword : string) : M unit :=
  if negb (Nat.eqb (String.length keyword) 0) then keyword_set_create t keyword creator
  else ret tt.

(** ** Lengths of attempts *)

(** The whole seconds of a timestamp, its sub-second part dropped. *)
Definition whole_seconds (d : datetime) : Z := d / SECOND.

(** A number of seconds in tenths of a minute, to the nearest tenth, halves
    away from zero. *)
Definition tenths_of (seconds : Z) : Z :=
  if 0 <=? seconds then (seconds + 3) / 6 else - ((3 - seconds) / 6).

(** The length as the specification words it: the difference between the two
    timestamps, in minutes, rounded to one decimal place. *)
Definition length_by_difference (a : TaskAttempt) : Q :=
  py_round (inject_Z (modified a - created a) / inject_Z MINUTE)%Q 1.

(** An attempt created half a second after an instant and last modified 3.4
    seconds after it: 2.9 seconds long. *)
Definition attempt_of_2900ms : TaskAttempt :=
  mkTaskAttempt 1 (Some 7%nat) 1 FINISHED false 500000 3400000.

(** ** The availability filter *)

(** Midnight of the day of [d]. *)
Definition midnight (d : datetime) : datetime := dt_day d * DAY.

(** The one-time task once user 7 has finished it. *)
Definition finished_by_7 : TaskAttempt := mkTaskAttempt 1 (Some 7%nat) 1 FINISHED false 10 20.

Definition world_finished_by_7 : World :=
  mkWorld 30 (fun _ => 100) 0 {[ 1%nat := one_time_task ]} {[ 1%nat := finished_by_7 ]} ∅.

(** A repeatable task that starts at noon of day 40, seen at 1 pm that day. *)
Definition starts_at_noon : Task :=
  mkTask 2 "review" false false true (Some (day 40 + 12 * HOUR)) None.

Definition world_1pm : World :=
  mkWorld 30 (fun _ => day 40 + 13 * HOUR) 0 {[ 2%nat := starts_at_noon ]} ∅ ∅.

(** ** The operations of the module *)

(** Finished, Abandoned and Closed are the terminal states. *)
Definition terminal (s : State) : bool :=
  match s with
  | STARTED => false
  | FINISHED | ABANDONED | CLOSED => true
  end.

(** The methods and class methods that [models.py] defines for tasks and
    attempts and that reach the tables or the clock (rendering and feedback
    apart, which touch neither attempts nor tasks). *)
Inductive Operation :=
| Op_Task_save (t : Task)
| Op_replace_keywords (t : Task) (keywords : list string) (creator : User)
| Op_keywords_list (t : Task)
| Op_is_available (t : Task)
| Op_is_available_to_user (t : Task) (u : User)
| Op_is_taken (t : Task)
| Op_is_completed (t : Task)
| Op_is_available_filter (now : option datetime) (allow_expired : bool)
| Op_close_stale_onetime_attempts
| Op_close_expired_task_attempts.

Definition discard {A} (m : M A) : M unit := let* _ := m in ret tt.

Definition perform (op : Operation) : M unit :=
  match op with
  | Op_Task_save t => Task_save t
  | Op_replace_keywords t keywords creator => replace_keywords t keywords creator
  | Op_keywords_list t => discard (keywords_list t)
  | Op_is_available t => discard (is_available t)
  | Op_is_available_to_user t u => discard (is_available_to_user t u)
  | Op_is_taken t => discard (is_taken t)
  | Op_is_completed t => discard (is_completed t)
  | Op_is_available_filter now allow_expired =>
      discard (is_available_filter now allow_expired)
  | Op_close_stale_onetime_attempts => discard close_stale_onetime_attempts
  | Op_close_expired_task_attempts => discard close_expired_task_attempts
  end.

(** What an operation may do to the attempts: it keeps the tables
    well-formed and leaves every row in a terminal state as it is. *)
Definition keeps_terminal (w w' : World) : Prop :=
  wf_attempts w'
  /\ forall k a, attempt_table w !! k = Some a -> terminal (state a) = true ->
       attempt_table w' !! k = Some a.

(** * Further sample data *)

(** The one-time task when the user who closed-out attempt belonged to was
    deleted: the attempt is Closed and its user is null. *)
Definition closed_by_nobody : TaskAttempt := mkTaskAttempt 1 None 1 CLOSED true 10 20.

Definition world_closed_by_nobody : World :=
  mkWorld 30 (fun _ => 100) 0 {[ 1%nat := one_time_task ]} {[ 1%nat := closed_by_nobody ]} ∅.

(** The filter that [is_available_filter] returns when it compares with the
    time [cmp]. *)
Definition filter_comparing_with (cmp : datetime) (allow_expired : bool)
    : django_Q TaskLookup :=
  let q_filter :=
    Q_and (Q_and (Q_leaf (K_is_draft false)) (Q_leaf (K_is_invalid false)))
          (Q_or (Q_leaf (K_start_date__isnull true)) (Q_leaf (K_start_date__lte cmp))) in
  let q_filter :=
    if negb allow_expired then
      Q_and q_filter (Q_or (Q_leaf (K_end_date__isnull true)) (Q_leaf (K_end_date__gt cmp)))
    else q_filter in
  Q_and q_filter
        (Q_or (Q_leaf (K_repeatable true))
              (Q_and (Q_not (Q_leaf (K_taskattempt_set__state STARTED)))
                     (Q_not (Q_leaf (K_taskattempt_set__state FINISHED))))).

(** A draft, an invalid task and a task without dates, each with one Started
    attempt; the clock advances by one day at every reading. *)
Definition draft_task : Task := mkTask 1 "draft" true false true None None.

Definition flagged_invalid : Task := mkTask 2 "invalid" false true true None None.

Definition dateless_task : Task := mkTask 3 "dateless" false false true None None.

Definition world_three_tasks : World :=
  mkWorld 30 (fun n => day (Z.of_nat n)) 0
          (<[ 1%nat := draft_task ]>
             (<[ 2%nat := flagged_invalid ]> {[ 3%nat := dateless_task ]}))
          (<[ 1%nat := mkTaskAttempt 1 (Some 7%nat) 1 STARTED false 0 1 ]>
             (<[ 2%nat := mkTaskAttempt 2 (Some 7%nat) 2 STARTED false 0 2 ]>
                {[ 3%nat := mkTaskAttempt 3 (Some 7%nat) 3 STARTED false 0 3 ]}))
          ∅.

(** How the operations of the module may change a row of attempts: not at
    all, or from Started to Closed with the notification flag set (and
    possibly a new [modified]), every other field kept. *)
Definition evolves (a a' : TaskAttempt) : Prop :=
  a' = a
  \/ (state a = STARTED /\ a' = with_modified (modified a') (close_fields a)).

Definition tables_evolve (w w' : World) : Prop :=
  forall k, option_Forall2 evolves (attempt_table w !! k) (attempt_table w' !! k).

(** * Labels, feedback and widgets *)

(** The exceptions that the code below can raise. *)
Inductive Exception :=
| KeyError | UnicodeEncodeError | TypeError | DoesNotExist | MultipleObjectsReturned.

Inductive result (A : Type) : Type :=
| Ok (x : A)
| Raise (e : Exception).

Arguments Ok {A} x.
Arguments Raise {A} e.

Definition result_bind {A B} (r : result A) (k : A -> result B) : result B :=
  match r with
  | Ok x => k x
  | Raise e => Raise e
  end.

(** ** TaskInvalidationCriterion *)

Definition EQUAL : Z := 0.
Definition NOT_EQUAL : Z := 1.

(** [choices = {EQUAL: '==', NOT_EQUAL: '!='}] *)
Definition choices : gmap Z string := {[ EQUAL := "=="; NOT_EQUAL := "!=" ]}.

(** The text fields hold unicode strings; a character of code 128 or more
    stands for one outside ASCII. *)
Record TaskInvalidationCriterion := mkTaskInvalidationCriterion {
  field_name : string;
  relation : Z;
  field_value : string }.

(** A character below 128: its highest bit is clear. *)
Definition is_ascii (c : Ascii.ascii) : bool :=
  match c with
  | Ascii.Ascii _ _ _ _ _ _ _ high => negb high
  end.

Fixpoint all_ascii (s : string) : bool :=
  match s with
  | EmptyString => true
  | String c s' => is_ascii c && all_ascii s'
  end.

(** [str(u)] of a unicode string (Python 2): the string encoded as ASCII. *)
Definition py_str (u : string) : result string :=
  if all_ascii u then Ok u else Raise UnicodeEncodeError.

(** [d[k]] *)
Definition getitem (d : gmap Z string) (k : Z) : result string :=
  match d !! k with
  | Some v => Ok v
  | None => Raise KeyError
  end.

Definition TaskInvalidationCriterion_unicode (self : TaskInvalidationCriterion)
    : result string :=
  result_bind (py_str (field_name self)) (fun name =>
  result_bind (getitem choices (relation self)) (fun rel =>
  Ok (String.concat " " [name; rel; field_value self]))).

(** ** BugzillaBug *)

Record BugzillaBug := mkBugzillaBug {
  summary : string;
  bugzilla_id : Z }.

(** [' '.join(['Bug', str(self.bugzilla_id)])] *)
Definition BugzillaBug_unicode (self : BugzillaBug) : string :=
  String.concat " " ["Bug"; pretty (bugzilla_id self)].

(** ** Feedback *)

Record Feedback := mkFeedback {
  feedback_attempt : nat;      (* one-to-one key to TaskAttempt *)
  feedback_text : string }.

(** [self.feedback]: the feedback whose attempt is [self], looked up in the
    table of feedback. *)
Definition attempt_feedback (feedbacks : gmap nat Feedback) (self : TaskAttempt)
    : result Feedback :=
  match snd <$> map_to_list
                  (filter (fun kv => feedback_attempt kv.2 = attempt_id self) feedbacks) with
  | [] => Raise DoesNotExist
  | [f] => Ok f
  | _ => Raise MultipleObjectsReturned
  end.

Definition has_feedback (feedbacks : gmap nat Feedback) (self : TaskAttempt)
    : result bool :=
  match attempt_feedback feedbacks self with
  | Ok _ => Ok true
  | Raise DoesNotExist => Ok false
  | Raise e => Raise e
  end.

(** [gettext] stands for the translation function [_]. *)
Definition feedback_display (gettext : string -> string)
    (feedbacks : gmap nat Feedback) (self : TaskAttempt) : result string :=
  result_bind (has_feedback feedbacks self) (fun found =>
    if found then
      result_bind (attempt_feedback feedbacks self) (fun f => Ok (feedback_text f))
    else Ok (gettext "No feedback for this attempt")).

(** ** Widgets *)

(** The [attrs] argument of [CalendarInput.render]: left out (the default
    dictionary of the function, one object shared by all such calls), [None],
    or a dictionary of the caller. *)
Inductive AttrsArgument :=
| attrs_omitted
| attrs_None
| attrs_dict (d : gmap string string).

(** [if 'class' not in attrs: attrs['class'] = 'datepicker'] *)
Definition with_datepicker (attrs : gmap string string) : gmap string string :=
  if bool_decide ("class" ∈ dom attrs) then attrs else <["class" := "datepicker"]> attrs.

(** [CalendarInput.render]: the result, and the default dictionary of the
    function after the call.  [DateInput_render] stands for the inherited
    [render]; the dictionary it is given is the mutated one. *)
Definition CalendarInput_render
    (DateInput_render : string -> string -> gmap string string -> string)
    (shared_default : gmap string string)
    (name value : string) (attrs : AttrsArgument)
    : result string * gmap string string :=
  match attrs with
  | attrs_omitted =>
      let attrs := with_datepicker shared_default in
      (Ok (DateInput_render name value attrs), attrs)
  | attrs_None => (Raise TypeError, shared_default)
  | attrs_dict d =>
      (Ok (DateInput_render name value (with_datepicker d)), shared_default)
  end.

(** [s.replace(old, new)] for a non-empty [old]: the occurrences of [old] are
    found from left to right without overlap; [skip] counts the characters
    of the occurrence just replaced that are still to be passed over. *)
Fixpoint replace_scan (old new : string) (skip : nat) (s : string) : string :=
  match s with
  | EmptyString => EmptyString
  | String c s' =>
      match skip with
      | S n => replace_scan old new n s'
      | O =>
          if String.prefix old s
          then new +:+ replace_scan old new (String.length old - 1) s'
          else String c (replace_scan old new 0 s')
      end
  end.

(** For an empty [old], [new] goes before every character and at the end. *)
Fixpoint replace_empty (new : string) (s : string) : string :=
  match s with
  | EmptyString => new
  | String c s' => new +:+ String c (replace_empty new s')
  end.

Definition py_replace (s old new : string) : string :=
  match old with
  | EmptyString => replace_empty new s
  | _ => replace_scan old new 0 s
  end.

(** [HorizCheckboxSelect.render], from the output of the inherited [render]. *)
Definition HorizCheckboxSelect_render (output : string) : string :=
  py_replace (py_replace (py_replace (py_replace output "<ul>" "") "</ul>" "")
                         "<li>" "")
             "</li>" "".

(** [old] occurs in [s]. *)
Definition occurs (old s : string) : Prop :=
  exists before after, s = before +:+ old +:+ after.

(** The characters of a string. *)
Fixpoint chars (s : string) : list Ascii.ascii :=
  match s with
  | EmptyString => []
  | String c s' => c :: chars s'
  end.

(** * Properties *)

(** ** Running computations *)

Lemma bind_Some {A B} (m : M A) (k : A -> M B) w x w' :
  m w = Some (x, w') -> bind m k w = k x w'.
Proof. intros H. unfold bind. now rewrite H. Qed.

Lemma value_of_Some {A} (m : M A) w x w' :
  m w = Some (x, w') -> value_of m w = Some x.
Proof. intros H. unfold value_of. now rewrite H. Qed.

(** ** The availability window *)

Lemma is_available_run t w :
  is_available t w = Some (available_at (current_time w) t, after_is_available t w).
Proof.
  unfold is_available, available_at, after_is_available.
  destruct (is_draft t || is_invalid t); reflexivity.
Qed.

Lemma value_of_is_available t w :
  value_of (is_available t) w = Some (available_at (current_time w) t).
Proof. unfold value_of. now rewrite is_available_run. Qed.

Lemma after_is_available_tables t w :
  task_table (after_is_available t w) = task_table w
  /\ attempt_table (after_is_available t w) = attempt_table w
  /\ keyword_table (after_is_available t w) = keyword_table w
  /\ clock (after_is_available t w) = clock w
  /\ TASK_ATTEMPT_EXPIRATION_DURATION (after_is_available t w)
     = TASK_ATTEMPT_EXPIRATION_DURATION w.
Proof. unfold after_is_available. destruct (is_draft t || is_invalid t); auto. Qed.

Lemma available_at_true now t :
  available_at now t = true <->
  is_draft t = false /\ is_invalid t = false
  /\ (forall s, start_date t = Some s -> s <= now)
  /\ (forall e, end_date t = Some e -> now <= e).
Proof.
  unfold available_at.
  destruct (is_draft t), (is_invalid t); simpl;
    try (split; [discriminate | intros (? & ? & _); discriminate]).
  destruct (start_date t) as [s|], (end_date t) as [e|]; simpl;
    rewrite ?orb_false_r, ?negb_true_iff, ?orb_false_iff;
    rewrite ?Z.gtb_ltb, ?Z.ltb_ge.
  - split.
    + intros [He Hs]. repeat split; auto; intros ? [= <-]; lia.
    + intros (_ & _ & Hs & He). split; [apply He | apply Hs]; reflexivity.
  - split.
    + intros Hs. repeat split; auto; [intros ? [= <-]; lia | discriminate].
    + intros (_ & _ & Hs & _). apply Hs. reflexivity.
  - split.
    + intros He. repeat split; auto; [discriminate | intros ? [= <-]; lia].
    + intros (_ & _ & _ & He). apply He. reflexivity.
  - split; [intros _ | reflexivity]. repeat split; auto; discriminate.
Qed.

(** C2, as stated, fails: at the very instant [end_date] the task is still
    available, although that instant lies outside the half-open window. *)
Lemma is_available_at_end_date :
  is_draft ends_at_100 = false /\ is_invalid ends_at_100 = false
  /\ value_of (is_available ends_at_100) world_at_100 = Some true
  /\ ~ in_half_open_window (current_time world_at_100) ends_at_100.
Proof.
  repeat split.
  intros [_ He]. specialize (He 100 eq_refl). vm_compute in He. discriminate.
Qed.

(** C2 (amended): [is_available] is true exactly when the task is neither a
    draft nor invalid and the current time lies in the closed window
    [[start_date, end_date]], an absent bound being no bound.  It always
    returns; a draft or invalid task is unavailable whatever its dates, and a
    task with neither flag and no dates is available. *)
Theorem is_available_closed_window (w : World) (t : Task) :
  (value_of (is_available t) w = Some true <->
     is_draft t = false /\ is_invalid t = false
     /\ (forall s, start_date t = Some s -> s <= current_time w)
     /\ (forall e, end_date t = Some e -> current_time w <= e))
  /\ (exists b, value_of (is_available t) w = Some b)
  /\ (is_draft t = true \/ is_invalid t = true ->
      value_of (is_available t) w = Some false)
  /\ (is_draft t = false -> is_invalid t = false ->
      start_date t = None -> end_date t = None ->
      value_of (is_available t) w = Some true).
Proof.
  rewrite value_of_is_available.
  split; [split | split; [ | split]].
  - intros H. apply available_at_true. congruence.
  - intros H. f_equal. now apply available_at_true.
  - eauto.
  - intros [H | H]; unfold available_at; rewrite H; now rewrite ?orb_true_r.
  - intros Hd Hi Hs He. f_equal. apply available_at_true.
    rewrite Hs, He. repeat split; auto; discriminate.
Qed.

(** ** Query sets *)

Lemma qs_rows_lookup w qs k a :
  qs_rows w qs !! k = Some a <-> attempt_table w !! k = Some a /\ qs_hit w qs a = true.
Proof. unfold qs_rows. now rewrite map_lookup_filter_Some. Qed.

Lemma qs_nonempty w qs :
  negb (Nat.eqb (size (qs_rows w qs)) 0) = true <->
  exists k a, attempt_table w !! k = Some a /\ qs_hit w qs a = true.
Proof.
  rewrite negb_true_iff, Nat.eqb_neq, map_size_ne_0_lookup. split.
  - intros (k & a & Ha). exists k, a. now apply qs_rows_lookup.
  - intros (k & a & Ha). exists k, a. now apply qs_rows_lookup.
Qed.

Lemma qs_update_lookup qs f w n w' k :
  qs_update qs f w = Some (n, w') ->
  attempt_table w' !! k
  = (fun a => if qs_hit w qs a then f a else a) <$> attempt_table w !! k.
Proof. intros [= _ <-]. simpl. now rewrite lookup_fmap. Qed.

(** ** Availability to a user *)

Lemma has_rival_true w t u :
  has_rival w t u = true <->
  exists k a, attempt_table w !! k = Some a /\ task a = task_id t
              /\ user a <> Some u /\ state a <> ABANDONED.
Proof.
  unfold has_rival. rewrite qs_nonempty.
  split; intros (k & a & Ha & H); exists k, a; (split; [exact Ha |]).
  - unfold qs_hit in H. simpl in H.
    rewrite !andb_true_iff, !negb_true_iff, !bool_decide_eq_true,
      !bool_decide_eq_false in H. tauto.
  - unfold qs_hit. simpl.
    rewrite !andb_true_iff, !negb_true_iff, !bool_decide_eq_true,
      !bool_decide_eq_false. tauto.
Qed.

Lemma has_rival_false w t u :
  has_rival w t u = false <->
  forall k a, attempt_table w !! k = Some a -> task a = task_id t ->
              state a <> ABANDONED -> user a = Some u.
Proof.
  rewrite <- not_true_iff_false, has_rival_true. split.
  - intros Hno k a Ha Ht Hs.
    destruct (decide (user a = Some u)) as [|Hu]; [done |].
    exfalso. apply Hno. eauto 7.
  - intros Hall (k & a & Ha & Ht & Hu & Hs). apply Hu. eauto.
Qed.

Lemma is_available_to_user_run t u w :
  is_available_to_user t u w
  = Some (available_at (current_time w) t && (repeatable t || negb (has_rival w t u)),
          after_is_available t w).
Proof.
  unfold is_available_to_user.
  rewrite (bind_Some _ _ _ _ _ (is_available_run t w)).
  unfold after_is_available, has_rival, rival_filter.
  destruct (available_at (current_time w) t) eqn:Hav; simpl; [| reflexivity].
  destruct (repeatable t); simpl; [reflexivity |].
  destruct (is_draft t || is_invalid t); reflexivity.
Qed.

Lemma value_of_is_available_to_user t u w :
  value_of (is_available_to_user t u) w
  = Some (available_at (current_time w) t && (repeatable t || negb (has_rival w t u))).
Proof. unfold value_of. now rewrite is_available_to_user_run. Qed.

(** C1, as stated, fails: user 7 holds the only attempt on a one-time task,
    the attempt is Started, and the task is still available to user 7. *)
Lemma holder_still_sees_task_available :
  repeatable one_time_task = false
  /\ value_of (is_available one_time_task) world_started_by_7 = Some true
  /\ attempt_table world_started_by_7 !! 1%nat = Some started_by_7
  /\ task started_by_7 = task_id one_time_task
  /\ state started_by_7 = STARTED
  /\ user started_by_7 = Some 7%nat
  /\ value_of (is_available_to_user one_time_task 7%nat) world_started_by_7 = Some true.
Proof. repeat split; vm_compute; reflexivity. Qed.

(** C1 (amended): for a non-repeatable task that is otherwise available and
    has a Started attempt by user A, [is_available_to_user] returns false for
    every other user B; the attempts of A themselves are not counted, so for
    A it returns true exactly when every attempt on the task that is not
    Abandoned is A's own. *)
Theorem started_attempt_blocks_other_users
    (w : World) (t : Task) (k : nat) (a : TaskAttempt) (A : User) :
  repeatable t = false ->
  value_of (is_available t) w = Some true ->
  attempt_table w !! k = Some a ->
  task a = task_id t -> state a = STARTED -> user a = Some A ->
  (forall B, B <> A -> value_of (is_available_to_user t B) w = Some false)
  /\ (value_of (is_available_to_user t A) w = Some true <->
      forall k' a', attempt_table w !! k' = Some a' -> task a' = task_id t ->
                    state a' <> ABANDONED -> user a' = Some A).
Proof.
  intros Hrep Hav Ha Ht Hs Hu.
  rewrite value_of_is_available in Hav. injection Hav as Hav.
  split.
  - intros B HB. rewrite value_of_is_available_to_user, Hav, Hrep. simpl.
    f_equal. apply negb_false_iff, has_rival_true.
    exists k, a. repeat split; try done.
    + rewrite Hu. congruence.
    + now rewrite Hs.
  - rewrite value_of_is_available_to_user, Hav, Hrep. simpl.
    rewrite <- has_rival_false. split.
    + intros [= H]. now apply negb_true_iff.
    + intros H. now rewrite H.
Qed.

(** C1 (amended) for the one-time task that user 7 has started. *)
Lemma started_attempt_blocks_other_users_example :
  (forall B, B <> 7%nat ->
     value_of (is_available_to_user one_time_task B) world_started_by_7 = Some false)
  /\ (value_of (is_available_to_user one_time_task 7%nat) world_started_by_7 = Some true <->
      forall k' a', attempt_table world_started_by_7 !! k' = Some a' ->
                    task a' = task_id one_time_task ->
                    state a' <> ABANDONED -> user a' = Some 7%nat).
Proof.
  apply (started_attempt_blocks_other_users
           world_started_by_7 one_time_task 1%nat started_by_7 7%nat);
    vm_compute; reflexivity.
Defined.

(** C8: abandoned attempts never block availability.  A non-repeatable task
    that is otherwise available and all of whose attempts are Abandoned is
    available to every user. *)
Theorem abandoned_attempts_never_block (w : World) (t : Task) (u : User) :
  repeatable t = false ->
  value_of (is_available t) w = Some true ->
  (forall k a, attempt_table w !! k = Some a -> task a = task_id t ->
               state a = ABANDONED) ->
  value_of (is_available_to_user t u) w = Some true.
Proof.
  intros Hrep Hav Hall.
  rewrite value_of_is_available in Hav. injection Hav as Hav.
  rewrite value_of_is_available_to_user, Hav, Hrep. simpl. f_equal.
  apply negb_true_iff, has_rival_false.
  intros k a Ha Ht Hs. now specialize (Hall k a Ha Ht).
Qed.

(** C8 for the one-time task that user 7 abandoned, asked for user 8. *)
Lemma abandoned_attempts_never_block_example :
  repeatable one_time_task = false
  /\ value_of (is_available one_time_task) world_abandoned_by_7 = Some true
  /\ attempt_table world_abandoned_by_7 !! 1%nat = Some abandoned_by_7
  /\ value_of (is_available_to_user one_time_task 8%nat) world_abandoned_by_7 = Some true.
Proof.
  split; [reflexivity |]. split; [reflexivity |]. split; [reflexivity |].
  apply (abandoned_attempts_never_block world_abandoned_by_7 one_time_task 8%nat);
    [reflexivity | reflexivity |].
  intros k a Ha _. unfold world_abandoned_by_7 in Ha. simpl in Ha.
  apply lookup_singleton_Some in Ha as [_ <-]. reflexivity.
Defined.

(** ** Task.save *)

Lemma open_attempts_of_hit w t a :
  qs_hit w (open_attempts_of t) a
  = bool_decide (task a = task_id t) && bool_decide (state a = STARTED).
Proof. reflexivity. Qed.

(** The table of attempts that [Task.save] leaves. *)
Lemma Task_save_run t w :
  exists w',
    Task_save t w = Some (tt, w')
    /\ task_table w' = <[task_id t := t]> (task_table w)
    /\ keyword_table w' = keyword_table w
    /\ clock w' = clock w
    /\ (ticks w <= ticks w')%nat
    /\ attempt_table w'
       = if available_at (current_time w) t then attempt_table w
         else (fun a => if bool_decide (task a = task_id t)
                           && bool_decide (state a = STARTED)
                        then close_fields a else a) <$> attempt_table w.
Proof.
  unfold Task_save, Model_save_task, bind.
  rewrite is_available_run.
  change (current_time (with_task_table _ w)) with (current_time w).
  unfold after_is_available.
  destruct (available_at (current_time w) t); simpl;
    destruct (is_draft t || is_invalid t); simpl;
    eexists; repeat split; simpl; lia.
Qed.

(** C4: when a task is saved and is unavailable after the save, each of its
    Started attempts becomes Closed with [requires_notification] set and
    nothing else changed, and each of its Finished, Abandoned or Closed
    attempts is left as it was. *)
Theorem Task_save_closes_started_attempts (w : World) (t : Task) :
  value_of (let* _ := Model_save_task t in is_available t) w = Some false ->
  exists w',
    Task_save t w = Some (tt, w')
    /\ forall k a, attempt_table w !! k = Some a -> task a = task_id t ->
         (state a = STARTED ->
            attempt_table w' !! k
            = Some (mkTaskAttempt (attempt_id a) (user a) (task a) CLOSED true
                                  (created a) (modified a)))
         /\ (state a <> STARTED -> attempt_table w' !! k = Some a).
Proof.
  intros Hav.
  assert (available_at (current_time w) t = false) as Hun.
  { unfold value_of, bind, Model_save_task in Hav.
    rewrite is_available_run in Hav. simpl in Hav.
    unfold current_time. congruence. }
  destruct (Task_save_run t w) as (w' & Hrun & _ & _ & _ & _ & Htab).
  exists w'. split; [exact Hrun |].
  intros k a Ha Ht. rewrite Htab, Hun, lookup_fmap, Ha. simpl.
  rewrite (bool_decide_eq_true_2 _ Ht). simpl. split; intros Hs.
  - now rewrite (bool_decide_eq_true_2 _ Hs).
  - now rewrite (bool_decide_eq_false_2 _ Hs).
Qed.

(** C4 for a task saved as invalid, with one attempt in each state. *)
Lemma Task_save_closes_started_attempts_example :
  exists w',
    Task_save invalid_task world_four_attempts = Some (tt, w')
    /\ forall k a, attempt_table world_four_attempts !! k = Some a ->
         task a = task_id invalid_task ->
         (state a = STARTED ->
            attempt_table w' !! k
            = Some (mkTaskAttempt (attempt_id a) (user a) (task a) CLOSED true
                                  (created a) (modified a)))
         /\ (state a <> STARTED -> attempt_table w' !! k = Some a).
Proof.
  apply (Task_save_closes_started_attempts world_four_attempts invalid_task).
  reflexivity.
Defined.

(** ** TaskAttempt.close_stale_onetime_attempts *)

Lemma close_stale_onetime_attempts_run w :
  exists w',
    close_stale_onetime_attempts w
    = Some (size (filter (fun kv => stale_at w kv.2 = true) (attempt_table w)), w')
    /\ task_table w' = task_table w
    /\ keyword_table w' = keyword_table w
    /\ clock w' = clock w
    /\ ticks w' = S (ticks w)
    /\ attempt_table w'
       = (fun a => if stale_at w a then close_fields a else a) <$> attempt_table w.
Proof.
  exists (with_attempt_table
            ((fun a => if stale_at w a then close_fields a else a) <$> attempt_table w)
            (with_ticks (S (ticks w)) w)).
  split; [reflexivity |]. repeat split.
Qed.

(** The sweep is one bulk update: a row is rewritten exactly when it is
    Started, on a one-time task, and created at or before the current time
    minus the expiration duration; the count returned is the number of such
    rows. *)
Lemma close_stale_onetime_attempts_rows w :
  exists n w',
    close_stale_onetime_attempts w = Some (n, w')
    /\ n = size (filter (fun kv => stale_at w kv.2 = true) (attempt_table w))
    /\ forall k a, attempt_table w !! k = Some a ->
         attempt_table w' !! k
         = Some (if stale_at w a
                 then mkTaskAttempt (attempt_id a) (user a) (task a) CLOSED true
                                    (created a) (modified a)
                 else a).
Proof.
  destruct (close_stale_onetime_attempts_run w) as (w' & Hrun & _ & _ & _ & _ & Htab).
  eexists _, w'. split; [exact Hrun |]. split; [reflexivity |].
  intros k a Ha. rewrite Htab, lookup_fmap, Ha. simpl.
  now destruct (stale_at w a).
Qed.

Lemma stale_at_true w a :
  stale_at w a = true <->
  state a = STARTED
  /\ created a <= current_time w - timedelta_days (TASK_ATTEMPT_EXPIRATION_DURATION w)
  /\ exists t, task_table w !! task a = Some t /\ repeatable t = false.
Proof.
  unfold stale_at. rewrite !andb_true_iff, bool_decide_eq_true, Z.leb_le.
  destruct (task_table w !! task a) as [t|].
  - rewrite bool_decide_eq_true. split.
    + intros (? & ? & ?). eauto.
    + intros (? & ? & t' & [= <-] & ?). auto.
  - split; [intros (_ & _ & [=]) | intros (_ & _ & t' & [=] & _)].
Qed.

(** C6, as stated, fails at the boundary: with a 30-day expiration, the
    attempt created exactly 30 days ago is not older than the expiration
    duration, and it is closed (together with the one created 31 days ago;
    the one created 29 days ago stays Started, and the count is 2). *)
Lemma close_stale_closes_attempt_exactly_30_days_old :
  TASK_ATTEMPT_EXPIRATION_DURATION world_day_40 = 30
  /\ current_time world_day_40 - created (started_on 2 (day 10)) = timedelta_days 30
  /\ ~ (current_time world_day_40 - created (started_on 2 (day 10)) > timedelta_days 30)
  /\ exists w',
       close_stale_onetime_attempts world_day_40 = Some (2%nat, w')
       /\ attempt_table w' !! 1%nat
          = Some (mkTaskAttempt 1 (Some 7%nat) 1 CLOSED true (day 9) (day 9))
       /\ attempt_table w' !! 2%nat
          = Some (mkTaskAttempt 2 (Some 7%nat) 1 CLOSED true (day 10) (day 10))
       /\ attempt_table w' !! 3%nat = Some (started_on 3 (day 11)).
Proof.
  split; [reflexivity |]. split; [reflexivity |]. split; [now vm_compute |].
  destruct (close_stale_onetime_attempts_run world_day_40)
    as (w' & Hrun & _ & _ & _ & _ & Htab).
  exists w'. rewrite Htab, !lookup_fmap. split; [| now vm_compute].
  rewrite Hrun. reflexivity.
Qed.

(** C6 (amended): [close_stale_onetime_attempts] closes, in one bulk update
    with [requires_notification] set, exactly the attempts that are Started,
    belong to a non-repeatable task, and were created at or before the
    current time minus the expiration duration (so an attempt exactly as old
    as the duration is closed too); every other row is as before, and the
    number returned is the number of rows closed.  With a 30-day expiration,
    a Started attempt on a non-repeatable task created 31 days ago is closed,
    and one created 29 days ago is not. *)
Theorem close_stale_onetime_attempts_closes (w : World) :
  let compare_date :=
    current_time w - timedelta_days (TASK_ATTEMPT_EXPIRATION_DURATION w) in
  let stale (a : TaskAttempt) :=
    state a = STARTED /\ created a <= compare_date
    /\ exists t, task_table w !! task a = Some t /\ repeatable t = false in
  exists n w',
    close_stale_onetime_attempts w = Some (n, w')
    /\ (forall k a, attempt_table w !! k = Some a ->
          (stale a ->
             attempt_table w' !! k
             = Some (mkTaskAttempt (attempt_id a) (user a) (task a) CLOSED true
                                   (created a) (modified a)))
          /\ (~ stale a -> attempt_table w' !! k = Some a))
    /\ n = size (filter (fun kv => stale_at w kv.2 = true) (attempt_table w))
    /\ (forall a, stale_at w a = true <-> stale a)
    /\ (TASK_ATTEMPT_EXPIRATION_DURATION w = 30 ->
        forall k a t, attempt_table w !! k = Some a -> state a = STARTED ->
          task_table w !! task a = Some t -> repeatable t = false ->
          (created a = current_time w - timedelta_days 31 ->
             attempt_table w' !! k
             = Some (mkTaskAttempt (attempt_id a) (user a) (task a) CLOSED true
                                   (created a) (modified a)))
          /\ (created a = current_time w - timedelta_days 29 ->
                attempt_table w' !! k = Some a)).
Proof.
  intros compare_date stale.
  destruct (close_stale_onetime_attempts_rows w) as (n & w' & Hrun & Hn & Hrows).
  assert (forall a, stale_at w a = true <-> stale a) as Hstale
    by (intros a; apply stale_at_true).
  exists n, w'. split; [exact Hrun |]. split; [| split; [exact Hn | split; [exact Hstale |]]].
  - intros k a Ha. rewrite (Hrows k a Ha). split; intros Hs.
    + apply Hstale in Hs. now rewrite Hs.
    + rewrite <- Hstale in Hs. apply not_true_is_false in Hs. now rewrite Hs.
  - intros Hdur k a t Ha Hst Ht Hrep. rewrite (Hrows k a Ha). split; intros Hc.
    + assert (stale_at w a = true) as ->; [| reflexivity].
      apply Hstale. split; [exact Hst |]. split; [| eauto].
      unfold compare_date. rewrite Hc, Hdur. unfold timedelta_days, DAY, HOUR, MINUTE, SECOND. lia.
    + assert (stale_at w a = false) as ->; [| reflexivity].
      apply not_true_is_false. rewrite Hstale. intros (_ & Hle & _).
      unfold compare_date in Hle. rewrite Hc, Hdur in Hle.
      unfold timedelta_days, DAY, HOUR, MINUTE, SECOND in Hle. lia.
Qed.

(** ** TaskAttempt.close_expired_task_attempts *)

Lemma size_filter_listed {A} (Q : nat * A -> Prop) `{!forall x, Decision (Q x)}
    (m : gmap nat A) (l : list (nat * A)) :
  NoDup l ->
  (forall kv, kv ∈ l <-> m !! kv.1 = Some kv.2 /\ Q kv) ->
  size (filter Q m) = length l.
Proof.
  intros Hnd Hel. rewrite <- length_map_to_list.
  apply Permutation_length, NoDup_Permutation; [apply NoDup_map_to_list | exact Hnd |].
  intros [k x]. now rewrite elem_of_map_to_list, map_lookup_filter_Some, Hel.
Qed.

Lemma same_setup_refl w : same_setup w w.
Proof. now repeat split. Qed.

Lemma same_setup_trans w1 w2 w3 :
  same_setup w1 w2 -> same_setup w2 w3 -> same_setup w1 w3.
Proof.
  intros (? & ? & ? & ?) (? & ? & ? & ?). repeat split; congruence.
Qed.

Lemma after_is_available_setup t w : same_setup w (after_is_available t w).
Proof. unfold after_is_available. destruct (is_draft t || is_invalid t); now repeat split. Qed.

Lemma after_is_available_ticks t w :
  (ticks w <= ticks (after_is_available t w) <= S (ticks w))%nat.
Proof. unfold after_is_available. destruct (is_draft t || is_invalid t); simpl; lia. Qed.

Lemma Model_save_attempt_run a w :
  Model_save_attempt a w = Some (tt, after_save_attempt a w).
Proof. reflexivity. Qed.

Lemma close_expired_loop_spec l : forall c w,
  NoDup (attempt_id <$> l) ->
  (forall a, a ∈ l ->
     state a = STARTED /\ attempt_table w !! attempt_id a = Some a
     /\ is_Some (task_table w !! task a)) ->
  exists n w',
    close_expired_loop l c w = Some ((c + n)%nat, w')
    /\ same_setup w w'
    /\ (ticks w <= ticks w')%nat
    /\ (forall k, k ∉ attempt_id <$> l -> attempt_table w' !! k = attempt_table w !! k)
    /\ (forall a, a ∈ l -> swept w w' a)
    /\ n = length (filter (fun a => state <$> attempt_table w' !! attempt_id a = Some CLOSED) l).
Proof.
  induction l as [|a l IH]; intros c w Hnd Hl.
  - exists 0%nat, w. simpl. rewrite Nat.add_0_r.
    repeat split; auto. intros a Ha. inversion Ha.
  - rewrite fmap_cons in Hnd. apply NoDup_cons in Hnd as [Hfresh Hnd].
    destruct (Hl a) as (Hst & Hrow & [t Ht]); [left |].
    cbn [close_expired_loop]. unfold bind at 1, attempt_task. rewrite Ht.
    unfold bind at 1. rewrite is_available_run.
    pose proof (after_is_available_setup t w) as Hset1.
    pose proof (after_is_available_ticks t w) as Htk1.
    set (w1 := after_is_available t w) in *.
    assert (attempt_table w1 = attempt_table w) as Hat1
      by (apply after_is_available_tables).
    destruct (available_at (current_time w) t) eqn:Hav; cbn [negb].
    + (* the task is available: the row is left alone *)
      destruct (IH c w1 Hnd) as (n & w' & Hrun & Hset & Htk & Hout & Hin & Hn).
      { intros b Hb. destruct (Hl b) as (? & ? & ?); [now right |].
        destruct Hset1 as (-> & _). now rewrite Hat1. }
      assert (attempt_table w' !! attempt_id a = Some a) as Hsame
        by (rewrite (Hout _ Hfresh), Hat1; exact Hrow).
      exists n, w'. split; [exact Hrun |].
      split; [exact (same_setup_trans _ _ _ Hset1 Hset) |].
      split; [lia |]. split; [| split].
      * intros k Hk. rewrite fmap_cons, not_elem_of_cons in Hk.
        rewrite (Hout k), Hat1; tauto.
      * intros b Hb. apply elem_of_cons in Hb as [-> | Hb].
        -- exists t, (ticks w). split; [exact Ht |]. split; [lia |]. now left.
        -- destruct (Hin b Hb) as (tb & i & Htb & Hi & Hres).
           destruct Hset1 as (Htt & _ & Hck & _). rewrite Htt in Htb.
           exists tb, i. split; [exact Htb |]. split; [lia |].
           rewrite Hck in Hres.
           destruct Hres as [Hres | (Hun & j & Hj & Hres)]; [now left | right].
           split; [exact Hun |]. exists j. split; [lia | exact Hres].
      * rewrite filter_cons_False; [exact Hn |].
        rewrite Hsame. simpl. rewrite Hst. discriminate.
    + (* the task is not available: the row is closed and saved *)
      unfold bind at 1. rewrite Model_save_attempt_run.
      set (w2 := after_save_attempt (close_fields a) w1).
      assert (same_setup w1 w2) as Hset2 by (now repeat split).
      destruct (IH (c + 1)%nat w2 Hnd) as (n & w' & Hrun & Hset & Htk & Hout & Hin & Hn).
      { intros b Hb. destruct (Hl b) as (Hs & Hr & Hk); [now right |].
        split; [exact Hs |]. split.
        - unfold w2, after_save_attempt. cbn.
          rewrite lookup_insert_ne, Hat1; [exact Hr |].
          intros Heq. apply Hfresh. rewrite Heq.
          apply list_elem_of_fmap. eauto.
        - destruct Hset1 as (Htt & _).
          change (task_table w2) with (task_table w1). now rewrite Htt. }
      assert (attempt_table w' !! attempt_id a
              = Some (with_modified (current_time w1) (close_fields a))) as Hnew.
      { rewrite (Hout _ Hfresh). unfold w2, after_save_attempt. cbn.
        apply lookup_insert_eq. }
      assert (ticks w2 = S (ticks w1)) as Htk2 by reflexivity.
      exists (S n), w'. split; [rewrite Hrun; f_equal; f_equal; lia |].
      split; [exact (same_setup_trans _ _ _ Hset1 (same_setup_trans _ _ _ Hset2 Hset)) |].
      split; [lia |]. split; [| split].
      * intros k Hk. rewrite fmap_cons, not_elem_of_cons in Hk.
        destruct Hk as [Hne Hk]. rewrite (Hout k Hk).
        unfold w2, after_save_attempt. cbn.
        rewrite lookup_insert_ne, Hat1; [reflexivity | auto].
      * intros b Hb. apply elem_of_cons in Hb as [-> | Hb].
        -- exists t, (ticks w). split; [exact Ht |]. split; [lia |]. right.
           split; [exact Hav |]. exists (ticks w1). split; [lia |].
           rewrite Hnew. unfold current_time.
           destruct Hset1 as (_ & _ & -> & _). reflexivity.
        -- destruct (Hin b Hb) as (tb & i & Htb & Hi & Hres).
           destruct Hset1 as (Htt & _ & Hck & _).
           change (task_table w2) with (task_table w1) in Htb.
           change (clock w2) with (clock w1) in Hres.
           rewrite Htt in Htb. rewrite Hck in Hres.
           exists tb, i. split; [exact Htb |]. split; [lia |].
           destruct Hres as [Hres | (Hun & j & Hj & Hres)]; [now left | right].
           split; [exact Hun |]. exists j. split; [lia | exact Hres].
      * rewrite filter_cons_True; [simpl; now rewrite Hn |].
        now rewrite Hnew.
Qed.

Lemma NoDup_fmap_filter {A B} (f : A -> B) (P : A -> Prop) `{!forall x, Decision (P x)}
    (l : list A) :
  NoDup (f <$> l) -> NoDup (f <$> filter P l).
Proof.
  induction l as [|x l IH]; [done |].
  rewrite fmap_cons, NoDup_cons. intros [Hx Hl].
  rewrite filter_cons. destruct (decide (P x)); [| auto].
  rewrite fmap_cons, NoDup_cons. split; [| auto].
  intros Hin. apply Hx. apply list_elem_of_fmap in Hin as (y & -> & Hy).
  apply list_elem_of_fmap. exists y. split; [done |].
  now apply list_elem_of_filter in Hy.
Qed.

(** The rows over which the sweep iterates: the Started attempts, each once. *)
Lemma open_attempts_rows w :
  wf_attempts w ->
  exists rows,
    qs_iter (objects_filter (Q_leaf (K_state STARTED))) w = Some (rows, w)
    /\ NoDup (attempt_id <$> rows)
    /\ forall a, a ∈ rows <->
                 attempt_table w !! attempt_id a = Some a /\ state a = STARTED.
Proof.
  intros Hwf. eexists. split; [reflexivity |].
  set (R := qs_rows w (objects_filter (Q_leaf (K_state STARTED)))).
  assert (forall k a, R !! k = Some a <->
            attempt_table w !! k = Some a /\ state a = STARTED) as HR.
  { intros k a. unfold R. rewrite qs_rows_lookup. unfold qs_hit. simpl.
    now rewrite bool_decide_eq_true. }
  assert (forall kv, kv ∈ map_to_list R -> attempt_id kv.2 = kv.1) as Hid.
  { intros [k a] Hkv. apply elem_of_map_to_list, HR in Hkv as [Hk _].
    now apply Hwf in Hk. }
  split.
  - rewrite merge_sort_Permutation, <- list_fmap_compose.
    rewrite (list_fmap_ext (attempt_id ∘ snd) fst (map_to_list R)).
    + apply NoDup_fst_map_to_list.
    + intros i kv Hkv. apply Hid. eapply list_elem_of_lookup_2, Hkv.
  - intros a. rewrite merge_sort_Permutation, list_elem_of_fmap. split.
    + intros ([k a'] & -> & Hkv). pose proof (Hid _ Hkv) as Hk. simpl in *.
      apply elem_of_map_to_list, HR in Hkv. now rewrite Hk.
    + intros Ha. exists (attempt_id a, a). split; [reflexivity |].
      now apply elem_of_map_to_list, HR.
Qed.

(** The sweep as a whole. *)
Lemma close_expired_task_attempts_run w :
  wf_attempts w ->
  exists n w',
    close_expired_task_attempts w = Some (n, w')
    /\ same_setup w w'
    /\ (forall k, attempt_table w !! k = None -> attempt_table w' !! k = None)
    /\ (forall k a, attempt_table w !! k = Some a -> state a <> STARTED ->
          attempt_table w' !! k = Some a)
    /\ (forall k a, attempt_table w !! k = Some a -> state a = STARTED ->
          swept w w' a)
    /\ n = size (closed_between w w').
Proof.
  intros Hwf.
  destruct (open_attempts_rows w Hwf) as (rows & Hiter & Hnd & Hrows).
  destruct (close_expired_loop_spec rows 0%nat w Hnd)
    as (n & w' & Hrun & Hset & _ & Hout & Hin & Hn).
  { intros a Ha. apply Hrows in Ha as [Hrow Hst].
    split; [exact Hst |]. split; [exact Hrow |]. now apply Hwf in Hrow. }
  assert (forall k, (forall a, attempt_table w !! k = Some a -> state a <> STARTED) ->
            attempt_table w' !! k = attempt_table w !! k) as Hkeep.
  { intros k Hk. apply Hout. intros Hin'.
    apply list_elem_of_fmap in Hin' as (b & -> & Hb).
    apply Hrows in Hb as [Hb Hst]. now apply (Hk b). }
  exists n, w'. split; [| split; [exact Hset | split; [| split; [| split]]]].
  - unfold close_expired_task_attempts, bind. now rewrite Hiter, Hrun.
  - intros k Hk. rewrite Hkeep; [exact Hk |]. intros a Ha. congruence.
  - intros k a Ha Hns. rewrite Hkeep; [exact Ha |]. intros b Hb. congruence.
  - intros k a Ha Hst. apply Hin, Hrows. pose proof (Hwf k a Ha) as [Hk _].
    now rewrite Hk.
  - rewrite Hn. unfold closed_between.
    set (P := fun a => state <$> attempt_table w' !! attempt_id a = Some CLOSED).
    rewrite (size_filter_listed _ _ ((fun a => (attempt_id a, a)) <$> filter P rows)).
    + now rewrite length_fmap.
    + apply (NoDup_fmap_1 fst). rewrite <- list_fmap_compose.
      now apply NoDup_fmap_filter.
    + intros [k a]. rewrite list_elem_of_fmap. simpl. split.
      * intros (b & [= -> ->] & Hb). apply list_elem_of_filter in Hb as [HP Hb].
        apply Hrows in Hb as [Hb Hst]. auto.
      * intros (Ha & Hst & HP). pose proof (Hwf k a Ha) as [Hk _].
        exists a. split; [now rewrite Hk |].
        apply list_elem_of_filter. split; [unfold P; now rewrite Hk |].
        apply Hrows. now rewrite Hk.
Qed.

(** C7: [close_expired_task_attempts] returns, and for every Started attempt
    there is a reading of the clock, taken during the sweep, at which the
    availability of its task was checked with [is_available]: if the task
    was not available the attempt is now Closed with [requires_notification]
    set (and [modified] stamped by the save), and if the task was available
    the attempt is untouched.  Attempts that were not Started are untouched.
    The number returned is the number of attempts that were Started before
    and are Closed after. *)
Theorem close_expired_task_attempts_sweep (w : World) :
  wf_attempts w ->
  exists n w',
    close_expired_task_attempts w = Some (n, w')
    /\ (forall k a, attempt_table w !! k = Some a ->
          (state a <> STARTED -> attempt_table w' !! k = Some a)
          /\ (state a = STARTED ->
              exists t i stamp,
                task_table w !! task a = Some t
                /\ (ticks w <= i <= ticks w')%nat
                /\ ((value_of (is_available t) (with_ticks i w) = Some false
                     /\ attempt_table w' !! k
                        = Some (mkTaskAttempt (attempt_id a) (user a) (task a)
                                              CLOSED true (created a) stamp))
                    \/ (value_of (is_available t) (with_ticks i w) = Some true
                        /\ attempt_table w' !! k = Some a))))
    /\ n = size (closed_between w w').
Proof.
  intros Hwf.
  destruct (close_expired_task_attempts_run w Hwf)
    as (n & w' & Hrun & _ & _ & Hkeep & Hswept & Hn).
  exists n, w'. split; [exact Hrun |]. split; [| exact Hn].
  intros k a Ha. split; [now apply Hkeep |].
  intros Hst. pose proof (Hwf k a Ha) as [Hk _].
  destruct (Hswept k a Ha Hst) as (t & i & Ht & Hi & Hres).
  rewrite Hk in Hres.
  destruct Hres as [[Hav Hres] | (Hav & j & _ & Hres)].
  - exists t, i, (modified a). split; [exact Ht |]. split; [exact Hi |]. right.
    split; [| exact Hres]. rewrite value_of_is_available. now f_equal.
  - exists t, i, (clock w j). split; [exact Ht |]. split; [exact Hi |]. left.
    split; [| exact Hres]. rewrite value_of_is_available. now f_equal.
Qed.

(** ** Task.replace_keywords *)

Lemma length_zero_empty (s : string) : String.length s = 0%nat <-> s = EmptyString.
Proof. destruct s; simpl; split; congruence. Qed.

Lemma filter_all {A} (P : A -> Prop) `{!forall x, Decision (P x)} (l : list A) :
  (forall x, x ∈ l -> P x) -> filter P l = l.
Proof.
  induction l as [|x l IH]; intros Hall; [done |].
  rewrite filter_cons_True by (apply Hall; left).
  f_equal. apply IH. intros y Hy. apply Hall. now right.
Qed.

Lemma filter_none {A} (P : A -> Prop) `{!forall x, Decision (P x)} (l : list A) :
  (forall x, x ∈ l -> ~ P x) -> filter P l = [].
Proof.
  induction l as [|x l IH]; intros Hall; [done |].
  rewrite filter_cons_False by (apply Hall; left).
  apply IH. intros y Hy. apply Hall. now right.
Qed.

(** The loop adds one row per non-empty keyword, under keys that were free,
    and touches nothing else. *)
Lemma add_keywords_spec t creator keywords : forall w,
  exists w',
    for_each keywords (add_keyword t creator) w = Some (tt, w')
    /\ task_table w' = task_table w
    /\ attempt_table w' = attempt_table w
    /\ clock w' = clock w /\ ticks w' = ticks w
    /\ TASK_ATTEMPT_EXPIRATION_DURATION w' = TASK_ATTEMPT_EXPIRATION_DURATION w
    /\ (forall k kw, keyword_table w !! k = Some kw -> keyword_table w' !! k = Some kw)
    /\ (forall k kw, keyword_table w' !! k = Some kw ->
          keyword_table w !! k = Some kw \/ keyword_task kw = task_id t)
    /\ (snd <$> map_to_list (keyword_table w'))
       ≡ₚ (new_keyword t creator <$> filter (fun s => s <> EmptyString) keywords)
          ++ (snd <$> map_to_list (keyword_table w)).
Proof.
  induction keywords as [|x l IH]; intros w.
  - exists w. simpl. repeat split; auto.
  - cbn [for_each]. unfold bind at 1, add_keyword at 1.
    destruct (String.length x =? 0)%nat eqn:Hlen; cbn [negb].
    + (* an empty keyword is skipped *)
      apply Nat.eqb_eq, length_zero_empty in Hlen.
      destruct (IH w) as (w' & Hrun & H). exists w'.
      split; [exact Hrun |]. rewrite filter_cons_False by tauto. exact H.
    + apply Nat.eqb_neq in Hlen. rewrite length_zero_empty in Hlen.
      set (m := keyword_table w).
      set (i := fresh (dom m)).
      assert (m !! i = None) as Hi by (apply not_elem_of_dom, is_fresh).
      unfold keyword_set_create. fold m i.
      set (w1 := with_keyword_table _ w).
      destruct (IH w1)
        as (w' & Hrun & Htt & Hat & Hck & Htk & Hdur & Hold & Honly & Hnew).
      exists w'. split; [exact Hrun |].
      repeat (split; [assumption |]). split; [| split].
      * intros k kw Hk. apply Hold. unfold w1. simpl.
        rewrite lookup_insert_ne; [exact Hk |]. intros <-. fold m in Hk. congruence.
      * intros k kw Hk. destruct (Honly k kw Hk) as [Hk1 | Hk1]; [| now right].
        unfold w1 in Hk1. simpl in Hk1.
        apply lookup_insert_Some in Hk1 as [[_ <-] | [_ Hk1]]; [now right | now left].
      * rewrite Hnew, filter_cons_True by exact Hlen.
        unfold w1. simpl. fold m.
        rewrite (map_to_list_insert m i _ Hi). simpl.
        symmetry. apply Permutation_middle.
Qed.

(** C10: [replace_keywords] returns; afterwards the keywords of the task are
    exactly one row per non-empty string of the input (with multiplicity,
    each owned by the task and carrying the creator), the empty strings
    having been skipped and the former keywords of the task deleted.  The
    keywords of other tasks, the tasks and the attempts are as before. *)
Theorem replace_keywords_sets_keywords
    (w : World) (t : Task) (keywords : list string) (creator : User) :
  exists w',
    replace_keywords t keywords creator w = Some (tt, w')
    /\ (exists rows,
          keyword_set_all t w' = Some (rows, w')
          /\ rows ≡ₚ (fun name => mkTaskKeyword (task_id t) name creator)
                     <$> filter (fun s => s <> EmptyString) keywords)
    /\ (forall k kw, keyword_task kw <> task_id t ->
          keyword_table w' !! k = Some kw <-> keyword_table w !! k = Some kw)
    /\ task_table w' = task_table w
    /\ attempt_table w' = attempt_table w.
Proof.
  unfold replace_keywords, bind, keyword_set_delete.
  set (m0 := filter (fun kv => keyword_task kv.2 <> task_id t) (keyword_table w)).
  destruct (add_keywords_spec t creator keywords (with_keyword_table m0 w))
    as (w' & Hrun & Htt & Hat & _ & _ & _ & Hold & Honly & Hnew).
  exists w'. split; [exact Hrun |]. simpl in *.
  assert (forall kw, kw ∈ snd <$> map_to_list m0 -> keyword_task kw <> task_id t) as Hm0.
  { intros kw Hkw. apply list_elem_of_fmap in Hkw as ([k kw'] & -> & Hk).
    apply elem_of_map_to_list in Hk. unfold m0 in Hk.
    now apply map_lookup_filter_Some in Hk as [_ Hk]. }
  split; [| split; [| split; assumption]].
  - eexists. split; [reflexivity |].
    rewrite Hnew, filter_app.
    rewrite (filter_none _ (snd <$> map_to_list m0)) by (intros kw Hkw; now apply Hm0).
    rewrite app_nil_r. rewrite filter_all; [reflexivity |].
    intros kw Hkw. apply list_elem_of_fmap in Hkw as (name & -> & _). reflexivity.
  - intros k kw Hne. split.
    + intros Hk. destruct (Honly k kw Hk) as [Hk1 | Hk1]; [| contradiction].
      unfold m0 in Hk1. now apply map_lookup_filter_Some in Hk1 as [Hk1 _].
    + intros Hk. apply Hold. unfold m0. now apply map_lookup_filter_Some.
Qed.

(** ** TaskAttempt.attempt_length_in_minutes *)

Lemma timetuple_whole_seconds (d : datetime) :
  dt_day d * 86400 + dt_hour d * 3600 + dt_minute d * 60 + dt_second d
  = whole_seconds d.
Proof.
  unfold dt_day, dt_hour, dt_minute, dt_second, whole_seconds, DAY, HOUR, MINUTE, SECOND.
  Z.to_euclidean_division_equations. lia.
Qed.

Lemma mktime_timetuple utcoffset d :
  mktime utcoffset (timetuple d) = inject_Z (whole_seconds d - utcoffset).
Proof. unfold mktime, timetuple. simpl. now rewrite timetuple_whole_seconds. Qed.

Lemma round_half_away_minutes (A B : Z) :
  round_half_away ((((inject_Z A - inject_Z B) / 60) * inject_Z (10 ^ 1))%Q)
  = tenths_of (A - B).
Proof.
  unfold round_half_away, tenths_of, Qle_bool, Qfloor, Qceiling,
    Qminus, Qplus, Qopp, Qdiv, Qmult, Qinv, inject_Z.
  simpl Qnum. simpl Qden. cbn -[Z.mul Z.add Z.div Z.leb Z.opp Z.sub].
  change (10 ^ 1) with 10. change (Z.pos (1 * 1 * 60 * 1)) with 60.
  change (Z.pos (1 * 1 * 60 * 1 * 2)) with 120.
  destruct (Z.leb_spec 0 (A - B)) as [H1|H1];
    destruct (Z.leb_spec (0 * 60) ((A * 1 + - B * 1) * 1 * 10 * 1)) as [H2|H2];
    try lia; Z.to_euclidean_division_equations; lia.
Qed.

Lemma tenths_of_nearest (n : Z) : -3 <= 6 * tenths_of n - n <= 3.
Proof.
  unfold tenths_of.
  destruct (Z.leb_spec 0 n); Z.to_euclidean_division_equations; lia.
Qed.

(** The length in tenths of a minute, whatever the local zone. *)
Lemma attempt_length_in_tenths utcoffset a :
  attempt_length_in_minutes utcoffset a
  = (inject_Z (tenths_of (whole_seconds (modified a) - whole_seconds (created a)))
     / inject_Z 10)%Q.
Proof.
  unfold attempt_length_in_minutes, py_round.
  rewrite !mktime_timetuple, round_half_away_minutes.
  change (10 ^ 1) with 10. do 3 f_equal. lia.
Qed.



(** ** Task.is_available_filter *)

Lemma midnight_of_day (d : datetime) : midnight d <= d < midnight d + DAY.
Proof.
  unfold midnight, dt_day, DAY, HOUR, MINUTE, SECOND.
  Z.to_euclidean_division_equations. lia.
Qed.

Lemma replace_hms0_midnight (d : datetime) :
  replace_hms0 d = midnight d + dt_microsecond d.
Proof. unfold replace_hms0, mk_datetime, midnight. lia. Qed.

Lemma no_attempt_in_state w t s :
  task_lookup w (K_taskattempt_set__state s) t = false <->
  forall k a, attempt_table w !! k = Some a -> task a = task_id t -> state a <> s.
Proof.
  cbn [task_lookup]. rewrite <- not_true_iff_false, qs_nonempty.
  unfold qs_hit. simpl. split.
  - intros Hno k a Ha Ht Hs. apply Hno. exists k, a. split; [exact Ha |].
    now rewrite !bool_decide_eq_true_2.
  - intros Hall (k & a & Ha & Hhit).
    apply andb_true_iff in Hhit as [Ht Hs].
    apply bool_decide_eq_true in Ht, Hs. now apply (Hall k a).
Qed.

Lemma is_available_filter_run now allow_expired w :
  exists q w',
    is_available_filter now allow_expired w = Some (q, w')
    /\ same_setup w w' /\ attempt_table w' = attempt_table w.
Proof.
  unfold is_available_filter, bind.
  destruct now as [d|]; simpl; eexists _, _; (split; [reflexivity |]);
    now repeat split.
Qed.

(** C5, as stated, fails: membership in the filter does not agree with the
    availability rules.  A one-time task that user 7 has finished is
    available (and available to user 7) but is not selected; a repeatable
    task that started at noon is available at 1 pm but is not selected,
    the filter comparing with midnight. *)
Lemma filter_disagrees_with_availability :
  (value_of (is_available one_time_task) world_finished_by_7 = Some true
   /\ value_of (is_available_to_user one_time_task 7%nat) world_finished_by_7 = Some true
   /\ exists q,
        value_of (is_available_filter (Some 100) false) world_finished_by_7 = Some q
        /\ Task_matches world_finished_by_7 q one_time_task = false)
  /\ (value_of (is_available starts_at_noon) world_1pm = Some true
      /\ exists q,
           value_of (is_available_filter None false) world_1pm = Some q
           /\ Task_matches world_1pm q starts_at_noon = false).
Proof.
  split.
  - split; [reflexivity |]. split; [reflexivity |].
    eexists. split; [reflexivity |]. now vm_compute.
  - split; [reflexivity |].
    eexists. split; [reflexivity |]. now vm_compute.
Qed.

(** C5 (amended): [is_available_filter] returns a filter over stored tasks.
    When the time it starts from (the given [now], or the clock if none is
    given) has no sub-second part, the time it compares with is midnight of
    that day, and a task is selected exactly when it is not a draft, not
    invalid, its [start_date] is null or not after that midnight, its
    [end_date] is null or after that midnight unless [allow_expired], and it
    is repeatable or has no Started and no Finished attempt. *)
Theorem is_available_filter_selects
    (w : World) (now : option datetime) (allow_expired : bool) (t : Task) :
  dt_microsecond (default (current_time w) now) = 0 ->
  exists q w',
    is_available_filter now allow_expired w = Some (q, w')
    /\ (Task_matches w q t = true <->
        is_draft t = false /\ is_invalid t = false
        /\ (forall s, start_date t = Some s ->
              s <= midnight (default (current_time w) now))
        /\ (allow_expired = false ->
            forall e, end_date t = Some e ->
              midnight (default (current_time w) now) < e)
        /\ (repeatable t = true
            \/ forall k a, attempt_table w !! k = Some a -> task a = task_id t ->
                 state a <> STARTED /\ state a <> FINISHED)).
Proof.
  intros Hus.
  set (base := default (current_time w) now) in *.
  assert (replace_hms0 base = midnight base) as Hmid
    by (rewrite replace_hms0_midnight, Hus; lia).
  assert (exists w', is_available_filter now allow_expired w
            = Some (Q_and
                      (let q := Q_and (Q_and (Q_leaf (K_is_draft false))
                                             (Q_leaf (K_is_invalid false)))
                                      (Q_or (Q_leaf (K_start_date__isnull true))
                                            (Q_leaf (K_start_date__lte (midnight base)))) in
                       if negb allow_expired
                       then Q_and q (Q_or (Q_leaf (K_end_date__isnull true))
                                          (Q_leaf (K_end_date__gt (midnight base))))
                       else q)
                      (Q_or (Q_leaf (K_repeatable true))
                            (Q_and (Q_not (Q_leaf (K_taskattempt_set__state STARTED)))
                                   (Q_not (Q_leaf (K_taskattempt_set__state FINISHED))))),
                    w')) as [w' Hrun].
  { unfold is_available_filter, bind. rewrite <- Hmid. unfold base.
    destruct now as [d|]; simpl; eexists; reflexivity. }
  eexists _, w'. split; [exact Hrun |].
  unfold Task_matches.
  assert (Q_matches (task_lookup w)
            (Q_or (Q_leaf (K_repeatable true))
                  (Q_and (Q_not (Q_leaf (K_taskattempt_set__state STARTED)))
                         (Q_not (Q_leaf (K_taskattempt_set__state FINISHED))))) t = true
          <-> (repeatable t = true
               \/ forall k a, attempt_table w !! k = Some a -> task a = task_id t ->
                    state a <> STARTED /\ state a <> FINISHED)) as Hatt.
  { cbn [Q_matches]. rewrite orb_true_iff, andb_true_iff, !negb_true_iff.
    rewrite !no_attempt_in_state. cbn [task_lookup]. rewrite bool_decide_eq_true.
    split; (intros [Hr | Hno]; [now left | right]).
    - intros k a Ha Ht. destruct Hno as [H1 H2]. split; eauto.
    - split; intros k a Ha Ht; now apply (Hno k a). }
  assert (Q_matches (task_lookup w)
            (Q_and (Q_and (Q_leaf (K_is_draft false)) (Q_leaf (K_is_invalid false)))
                   (Q_or (Q_leaf (K_start_date__isnull true))
                         (Q_leaf (K_start_date__lte (midnight base))))) t = true
          <-> (is_draft t = false /\ is_invalid t = false
               /\ forall s, start_date t = Some s -> s <= midnight base)) as Hflags.
  { cbn [Q_matches task_lookup].
    rewrite !andb_true_iff, orb_true_iff, !bool_decide_eq_true.
    destruct (start_date t) as [s|]; simpl; rewrite ?Z.leb_le.
    - split.
      + intros [[? ?] [? | ?]]; [discriminate |]. repeat split; auto.
        now intros ? [= <-].
      + intros (? & ? & Hs). repeat split; auto.
    - split.
      + intros [[? ?] _]. repeat split; auto. discriminate.
      + intros (? & ? & _). repeat split; auto. }
  cbn zeta. cbn [Q_matches]. rewrite andb_true_iff, Hatt.
  destruct allow_expired; cbn [negb].
  - rewrite Hflags. split.
    + intros [(? & ? & ?) ?]. repeat split; auto. discriminate.
    + intros (? & ? & ? & _ & ?). repeat split; auto.
  - cbn [Q_matches]. rewrite andb_true_iff, Hflags.
    assert (Q_matches (task_lookup w) (Q_leaf (K_end_date__isnull true)) t
            || Q_matches (task_lookup w) (Q_leaf (K_end_date__gt (midnight base))) t = true
            <-> forall e, end_date t = Some e -> midnight base < e) as Hend.
    { cbn [Q_matches task_lookup]. rewrite orb_true_iff, bool_decide_eq_true.
      destruct (end_date t) as [e|]; simpl; rewrite ?Z.gtb_ltb, ?Z.ltb_lt.
      - split.
        + intros [? | ?]; [discriminate |]. now intros ? [= <-].
        + intros He. right. now apply He.
      - split; [discriminate | auto]. }
    rewrite Hend. split.
    + intros [[(? & ? & ?) ?] ?]. repeat split; auto.
    + intros (? & ? & ? & He & ?). repeat split; auto.
Qed.

(** ** Terminal attempts *)

Lemma terminal_not_started s : terminal s = true <-> s <> STARTED.
Proof. destruct s; simpl; split; congruence. Qed.

Lemma wf_attempts_same w w' :
  attempt_table w' = attempt_table w -> task_table w' = task_table w ->
  wf_attempts w -> wf_attempts w'.
Proof. unfold wf_attempts. now intros -> ->. Qed.

Lemma replace_keywords_frame t keywords creator w :
  exists w',
    replace_keywords t keywords creator w = Some (tt, w')
    /\ task_table w' = task_table w /\ attempt_table w' = attempt_table w.
Proof.
  unfold replace_keywords, bind, keyword_set_delete.
  destruct (add_keywords_spec t creator keywords
              (with_keyword_table
                 (filter (fun kv => keyword_task kv.2 <> task_id t) (keyword_table w)) w))
    as (w' & Hrun & Htt & Hat & _).
  exists w'. split; [exact Hrun |]. now split.
Qed.

Lemma keeps_terminal_same w w' :
  attempt_table w' = attempt_table w -> task_table w' = task_table w ->
  wf_attempts w -> keeps_terminal w w'.
Proof.
  intros Hat Htt Hwf. split; [now apply (wf_attempts_same w) |].
  intros k a Ha _. now rewrite Hat.
Qed.

Lemma perform_keeps_terminal op w :
  wf_attempts w ->
  exists w', perform op w = Some (tt, w') /\ keeps_terminal w w'.
Proof.
  intros Hwf. destruct op as [t | t ks c | t | t | t u | t | t | now ae | | ]; cbn [perform].
  - (* Task.save *)
    destruct (Task_save_run t w) as (w' & Hrun & Htt & _ & _ & _ & Hat).
    exists w'. split; [exact Hrun |]. split.
    + intros k a'. rewrite Hat, Htt. intros Ha'.
      assert (exists a, attempt_table w !! k = Some a
                        /\ attempt_id a' = attempt_id a /\ task a' = task a)
        as (a & Ha & -> & ->).
      { destruct (available_at (current_time w) t); [eauto |].
        rewrite lookup_fmap in Ha'.
        destruct (attempt_table w !! k) as [a|]; [| discriminate].
        injection Ha' as <-. exists a. split; [reflexivity |].
        now destruct (_ && _). }
      destruct (Hwf k a Ha) as [Hk [t' Ht']]. split; [exact Hk |].
      destruct (decide (task_id t = task a)) as [<- | Hne].
      * rewrite lookup_insert_eq. eauto.
      * rewrite lookup_insert_ne by exact Hne. eauto.
    + intros k a Ha Hterm. rewrite Hat.
      destruct (available_at (current_time w) t); [exact Ha |].
      rewrite lookup_fmap, Ha. simpl.
      apply terminal_not_started in Hterm.
      now rewrite (bool_decide_eq_false_2 _ Hterm), andb_false_r.
  - (* replace_keywords *)
    destruct (replace_keywords_frame t ks c w) as (w' & Hrun & Htt & Hat).
    exists w'. split; [exact Hrun |]. now apply keeps_terminal_same.
  - (* keywords_list *)
    exists w. split; [reflexivity |]. now apply keeps_terminal_same.
  - (* is_available *)
    unfold discard, bind. rewrite is_available_run. eexists. split; [reflexivity |].
    apply keeps_terminal_same; [apply after_is_available_tables .. | exact Hwf].
  - (* is_available_to_user *)
    unfold discard, bind. rewrite is_available_to_user_run.
    eexists. split; [reflexivity |].
    apply keeps_terminal_same; [apply after_is_available_tables .. | exact Hwf].
  - (* is_taken *)
    exists w. split; [| now apply keeps_terminal_same].
    unfold discard, bind, is_taken. now destruct (repeatable t).
  - (* is_completed *)
    exists w. split; [| now apply keeps_terminal_same].
    unfold discard, bind, is_completed. now destruct (repeatable t).
  - (* is_available_filter *)
    destruct (is_available_filter_run now ae w) as (q & w' & Hrun & (Htt & _) & Hat).
    exists w'. split; [unfold discard, bind; now rewrite Hrun |].
    now apply keeps_terminal_same.
  - (* close_stale_onetime_attempts *)
    destruct (close_stale_onetime_attempts_run w) as (w' & Hrun & Htt & _ & _ & _ & Hat).
    exists w'. split; [unfold discard, bind; now rewrite Hrun |]. split.
    + intros k a'. rewrite Hat, Htt, lookup_fmap. intros Ha'.
      destruct (attempt_table w !! k) as [a|] eqn:Ha; [| discriminate].
      injection Ha' as <-. destruct (Hwf k a Ha) as [Hk Ht].
      now destruct (stale_at w a).
    + intros k a Ha Hterm. rewrite Hat, lookup_fmap, Ha. simpl.
      apply terminal_not_started in Hterm. unfold stale_at.
      now rewrite (bool_decide_eq_false_2 _ Hterm).
  - (* close_expired_task_attempts *)
    destruct (close_expired_task_attempts_run w Hwf)
      as (n & w' & Hrun & (Htt & _) & Hnone & Hkeep & Hswept & _).
    exists w'. split; [unfold discard, bind; now rewrite Hrun |]. split.
    + intros k a' Ha'. rewrite Htt.
      destruct (attempt_table w !! k) as [a|] eqn:Ha;
        [| rewrite (Hnone k Ha) in Ha'; discriminate].
      destruct (Hwf k a Ha) as [Hk Ht].
      destruct (decide (state a = STARTED)) as [Hst | Hst].
      * destruct (Hswept k a Ha Hst) as (t & i & _ & _ & Hres).
        rewrite Hk, Ha' in Hres.
        destruct Hres as [[_ Heq] | (_ & j & _ & Heq)];
          injection Heq as ->; now split.
      * rewrite (Hkeep k a Ha Hst) in Ha'. injection Ha' as <-. now split.
    + intros k a Ha Hterm. apply Hkeep; [exact Ha |].
      now apply terminal_not_started.
Qed.

Lemma perform_all_keeps_terminal ops : forall w,
  wf_attempts w ->
  exists w', for_each ops perform w = Some (tt, w') /\ keeps_terminal w w'.
Proof.
  induction ops as [|op ops IH]; intros w Hwf.
  - exists w. split; [reflexivity |]. split; [exact Hwf | auto].
  - destruct (perform_keeps_terminal op w Hwf) as (w1 & Hrun1 & Hwf1 & Hkeep1).
    destruct (IH w1 Hwf1) as (w' & Hrun & Hwf' & Hkeep).
    exists w'. split; [cbn [for_each]; unfold bind; now rewrite Hrun1 |].
    split; [exact Hwf' |]. intros k a Ha Hterm. apply Hkeep; auto.
Qed.


(** ** The theorems at sample data *)

Lemma wf_world_two_tasks : wf_attempts world_two_tasks.
Proof. apply (bool_decide_unpack _). vm_compute. exact I. Qed.

Lemma wf_world_four_attempts : wf_attempts world_four_attempts.
Proof. apply (bool_decide_unpack _). vm_compute. exact I. Qed.

(** The sweep on two tasks: the Started attempt on the expired task is
    closed at the third reading of the clock, the other rows are as before,
    and one attempt is counted. *)
Example close_expired_two_tasks :
  exists w',
    close_expired_task_attempts world_two_tasks = Some (1%nat, w')
    /\ attempt_table w' !! 1%nat = Some (mkTaskAttempt 1 (Some 7%nat) 1 CLOSED true 0 102)
    /\ attempt_table w' !! 2%nat = Some (mkTaskAttempt 2 (Some 8%nat) 2 STARTED false 0 7)
    /\ attempt_table w' !! 3%nat = Some (mkTaskAttempt 3 (Some 9%nat) 1 FINISHED false 0 9).
Proof. eexists. split; [vm_compute; reflexivity |]. now vm_compute. Qed.

(** C7 at the two tasks above. *)
Lemma close_expired_task_attempts_sweep_example :
  exists n w',
    close_expired_task_attempts world_two_tasks = Some (n, w')
    /\ (forall k a, attempt_table world_two_tasks !! k = Some a ->
          (state a <> STARTED -> attempt_table w' !! k = Some a)
          /\ (state a = STARTED ->
              exists t i stamp,
                task_table world_two_tasks !! task a = Some t
                /\ (ticks world_two_tasks <= i <= ticks w')%nat
                /\ ((value_of (is_available t) (with_ticks i world_two_tasks) = Some false
                     /\ attempt_table w' !! k
                        = Some (mkTaskAttempt (attempt_id a) (user a) (task a)
                                              CLOSED true (created a) stamp))
                    \/ (value_of (is_available t) (with_ticks i world_two_tasks) = Some true
                        /\ attempt_table w' !! k = Some a))))
    /\ n = size (closed_between world_two_tasks w').
Proof.
  apply (close_expired_task_attempts_sweep world_two_tasks).
  apply (bool_decide_unpack _). vm_compute. exact I.
Defined.


(** C5 for the finished one-time task, at 1 pm of day 40. *)
Lemma is_available_filter_selects_example :
  exists q w',
    is_available_filter (Some (day 40 + 13 * HOUR)) false world_finished_by_7 = Some (q, w')
    /\ (Task_matches world_finished_by_7 q one_time_task = true <->
        is_draft one_time_task = false /\ is_invalid one_time_task = false
        /\ (forall s, start_date one_time_task = Some s ->
              s <= midnight (default (current_time world_finished_by_7)
                                     (Some (day 40 + 13 * HOUR))))
        /\ (false = false ->
            forall e, end_date one_time_task = Some e ->
              midnight (default (current_time world_finished_by_7)
                                (Some (day 40 + 13 * HOUR))) < e)
        /\ (repeatable one_time_task = true
            \/ forall k a, attempt_table world_finished_by_7 !! k = Some a ->
                 task a = task_id one_time_task ->
                 state a <> STARTED /\ state a <> FINISHED)).
Proof.
  apply (is_available_filter_selects world_finished_by_7
           (Some (day 40 + 13 * HOUR)) false one_time_task).
  reflexivity.
Defined.

(** * Further properties of the module *)

(** ** Task.is_taken and Task.is_completed *)

Lemma attempt_in_state_exists w t s :
  negb (Nat.eqb (size (qs_rows w (qs_filter (taskattempt_set t) (Q_leaf (K_state s))))) 0) = true
  <-> exists k a, attempt_table w !! k = Some a /\ task a = task_id t /\ state a = s.
Proof.
  rewrite qs_nonempty. unfold qs_hit. simpl.
  split; intros (k & a & Ha & H); exists k, a; (split; [exact Ha |]).
  - apply andb_true_iff in H as [H1 H2]. now apply bool_decide_eq_true in H1, H2.
  - destruct H as [H1 H2]. now rewrite !bool_decide_eq_true_2.
Qed.

Lemma is_taken_run_aux t w :
  exists b, is_taken t w = Some (b, w)
            /\ (b = true <->
                repeatable t = false
                /\ exists k a, attempt_table w !! k = Some a
                               /\ task a = task_id t /\ state a = STARTED).
Proof.
  unfold is_taken, qs_exists.
  destruct (repeatable t); simpl; eexists; (split; [reflexivity |]).
  - split; [discriminate | now intros [? _]].
  - rewrite attempt_in_state_exists. tauto.
Qed.

Lemma is_completed_run_aux t w :
  exists b, is_completed t w = Some (b, w)
            /\ (b = true <->
                repeatable t = false
                /\ exists k a, attempt_table w !! k = Some a
                               /\ task a = task_id t /\ state a = FINISHED).
Proof.
  unfold is_completed, qs_exists.
  destruct (repeatable t); simpl; eexists; (split; [reflexivity |]).
  - split; [discriminate | now intros [? _]].
  - rewrite attempt_in_state_exists. tauto.
Qed.

(** X1: [is_taken] and [is_completed] only read the attempts (no reading of
    the clock, no write) and return true exactly for a non-repeatable task
    that has a Started, respectively a Finished, attempt. *)
Theorem is_taken_is_completed_iff (w : World) (t : Task) :
  (exists b, is_taken t w = Some (b, w)
             /\ (b = true <->
                 repeatable t = false
                 /\ exists k a, attempt_table w !! k = Some a
                                /\ task a = task_id t /\ state a = STARTED))
  /\ (exists b, is_completed t w = Some (b, w)
                /\ (b = true <->
                    repeatable t = false
                    /\ exists k a, attempt_table w !! k = Some a
                                   /\ task a = task_id t /\ state a = FINISHED)).
Proof. split; [apply is_taken_run_aux | apply is_completed_run_aux]. Qed.

(** ** Task.save, continued *)

(** X2: saving a task that is unavailable after the save leaves no Started
    attempt on it: [is_taken], asked right after the save, is false. *)
Theorem Task_save_unavailable_then_not_taken (w : World) (t : Task) :
  value_of (let* _ := Model_save_task t in is_available t) w = Some false ->
  value_of (let* _ := Task_save t in is_taken t) w = Some false.
Proof.
  intros Hav.
  assert (available_at (current_time w) t = false) as Hun.
  { unfold value_of, bind, Model_save_task in Hav.
    rewrite is_available_run in Hav. simpl in Hav.
    unfold current_time. congruence. }
  destruct (Task_save_run t w) as (w' & Hrun & _ & _ & _ & _ & Htab).
  unfold value_of, bind. rewrite Hrun.
  destruct (is_taken_run_aux t w') as (b & Hb & Hiff).
  rewrite Hb. simpl. f_equal. apply not_true_is_false. intros ->.
  destruct Hiff as [Hiff _]. destruct (Hiff eq_refl) as (_ & k & a' & Ha' & Ht & Hs).
  rewrite Htab, Hun, lookup_fmap in Ha'.
  destruct (attempt_table w !! k) as [a|]; [| discriminate].
  injection Ha' as <-.
  destruct (bool_decide (task a = task_id t) && bool_decide (state a = STARTED)) eqn:Hhit.
  - discriminate.
  - apply andb_false_iff in Hhit as [Hhit | Hhit];
      apply bool_decide_eq_false in Hhit; contradiction.
Qed.

(** X2 for the task saved as invalid, with one attempt in each state. *)
Lemma Task_save_unavailable_then_not_taken_example :
  value_of (let* _ := Task_save invalid_task in is_taken invalid_task)
           world_four_attempts = Some false.
Proof.
  apply (Task_save_unavailable_then_not_taken world_four_attempts invalid_task).
  reflexivity.
Defined.

(** X3: [Task.save] always returns; it creates and deletes no attempt,
    leaves the attempts of every other task and every attempt that is not
    Started as they are, and when the task is available after the save it
    leaves the whole table of attempts as it is.  The keywords are untouched. *)
Theorem Task_save_frame (w : World) (t : Task) :
  exists w',
    Task_save t w = Some (tt, w')
    /\ (forall k, attempt_table w !! k = None <-> attempt_table w' !! k = None)
    /\ (forall k a, attempt_table w !! k = Some a ->
          task a <> task_id t \/ state a <> STARTED ->
          attempt_table w' !! k = Some a)
    /\ (value_of (let* _ := Model_save_task t in is_available t) w = Some true ->
        attempt_table w' = attempt_table w)
    /\ keyword_table w' = keyword_table w.
Proof.
  destruct (Task_save_run t w) as (w' & Hrun & _ & Hkw & _ & _ & Htab).
  exists w'. split; [exact Hrun |]. split; [| split; [| split; [| exact Hkw]]].
  - intros k. rewrite Htab.
    destruct (available_at (current_time w) t); [reflexivity |].
    rewrite lookup_fmap. destruct (attempt_table w !! k); simpl; split; congruence.
  - intros k a Ha Hor. rewrite Htab.
    destruct (available_at (current_time w) t); [exact Ha |].
    rewrite lookup_fmap, Ha. simpl.
    destruct Hor as [Hne | Hne]; rewrite (bool_decide_eq_false_2 _ Hne);
      now rewrite ?andb_false_r.
  - intros Hav. rewrite Htab.
    unfold value_of, bind, Model_save_task in Hav.
    rewrite is_available_run in Hav. simpl in Hav.
    injection Hav as Hav. unfold current_time. now rewrite Hav.
Qed.

(** ** Task.is_available_to_user, continued *)

(** X4: [is_available_to_user] always returns, and returns true exactly when
    the task is available and either repeatable or such that every attempt
    on it that is not Abandoned belongs to the asking user. *)
Theorem is_available_to_user_iff (w : World) (t : Task) (u : User) :
  (exists b, value_of (is_available_to_user t u) w = Some b)
  /\ (value_of (is_available_to_user t u) w = Some true <->
      value_of (is_available t) w = Some true
      /\ (repeatable t = true
          \/ forall k a, attempt_table w !! k = Some a -> task a = task_id t ->
               state a <> ABANDONED -> user a = Some u)).
Proof.
  rewrite value_of_is_available_to_user, value_of_is_available.
  split; [eauto |].
  rewrite <- has_rival_false.
  destruct (available_at (current_time w) t), (repeatable t), (has_rival w t u);
    simpl; split; try tauto; try discriminate;
    intros [H1 H2]; try discriminate; destruct H2; discriminate.
Qed.

(** X5: on a non-repeatable task, an attempt that is not Abandoned and whose
    user is null (the user was deleted) makes the task unavailable to every
    user, whatever its state otherwise (Started, Finished or Closed). *)
Theorem attempt_of_deleted_user_blocks_everyone
    (w : World) (t : Task) (k : nat) (a : TaskAttempt) (u : User) :
  repeatable t = false ->
  attempt_table w !! k = Some a ->
  task a = task_id t -> state a <> ABANDONED -> user a = None ->
  value_of (is_available_to_user t u) w = Some false.
Proof.
  intros Hrep Ha Ht Hs Hu.
  rewrite value_of_is_available_to_user, Hrep. simpl. f_equal.
  apply andb_false_iff. right. apply negb_false_iff, has_rival_true.
  exists k, a. repeat split; try done. now rewrite Hu.
Qed.

(** X5 for the one-time task whose only attempt is Closed and belongs to a
    deleted user, asked for user 8. *)
Lemma attempt_of_deleted_user_blocks_everyone_example :
  value_of (is_available one_time_task) world_closed_by_nobody = Some true
  /\ value_of (is_available_to_user one_time_task 8%nat) world_closed_by_nobody = Some false.
Proof.
  split; [reflexivity |].
  apply (attempt_of_deleted_user_blocks_everyone
           world_closed_by_nobody one_time_task 1%nat closed_by_nobody 8%nat);
    try reflexivity.
  discriminate.
Defined.

(** ** Task.is_available_filter, continued *)

Lemma is_available_filter_value now allow_expired w :
  value_of (is_available_filter now allow_expired) w
  = Some (filter_comparing_with (replace_hms0 (default (current_time w) now)) allow_expired).
Proof. destruct now; reflexivity. Qed.

Lemma filter_comparing_with_matches w cmp allow_expired t :
  Task_matches w (filter_comparing_with cmp allow_expired) t = true <->
  is_draft t = false /\ is_invalid t = false
  /\ (forall s, start_date t = Some s -> s <= cmp)
  /\ (allow_expired = false -> forall e, end_date t = Some e -> cmp < e)
  /\ (repeatable t = true
      \/ forall k a, attempt_table w !! k = Some a -> task a = task_id t ->
           state a <> STARTED /\ state a <> FINISHED).
Proof.
  assert (task_lookup w (K_repeatable true) t
          || negb (task_lookup w (K_taskattempt_set__state STARTED) t)
             && negb (task_lookup w (K_taskattempt_set__state FINISHED) t) = true
          <-> (repeatable t = true
               \/ forall k a, attempt_table w !! k = Some a -> task a = task_id t ->
                    state a <> STARTED /\ state a <> FINISHED)) as Hatt.
  { rewrite orb_true_iff, andb_true_iff, !negb_true_iff, !no_attempt_in_state.
    cbn [task_lookup]. rewrite bool_decide_eq_true.
    split; (intros [Hr | Hno]; [now left | right]).
    - intros k a Ha Ht. destruct Hno as [H1 H2]. split; eauto.
    - split; intros k a Ha Ht; now apply (Hno k a). }
  rewrite <- Hatt. clear Hatt.
  unfold Task_matches, filter_comparing_with.
  destruct allow_expired; cbn [negb Q_matches];
    generalize (task_lookup w (K_repeatable true) t
                || negb (task_lookup w (K_taskattempt_set__state STARTED) t)
                   && negb (task_lookup w (K_taskattempt_set__state FINISHED) t));
    intros att; cbn [task_lookup];
    rewrite !andb_true_iff, ?orb_true_iff, !bool_decide_eq_true;
    destruct (start_date t) as [s|], (end_date t) as [e|]; simpl;
    rewrite ?Z.leb_le, ?Z.gtb_ltb, ?Z.ltb_lt.
  all: split;
    [ intros H; decompose [and or] H; clear H; try discriminate;
      repeat split; auto; try discriminate; try (now intros ? [= <-]);
      try (now intros _ ? [= <-])
    | intros (Hd & Hi & Hs & He & Ha); repeat split; auto;
      try (right; apply He; reflexivity); try (right; apply Hs; reflexivity);
      try (left; reflexivity); try (now apply Hs) ].
Qed.

(** X6: [allow_expired] only widens the selection: every task selected
    without it is selected with it, and on tasks without an [end_date] the
    two filters select the same. *)
Theorem allow_expired_selects_more
    (w : World) (now : option datetime) (t : Task) :
  exists q_strict q_lax,
    value_of (is_available_filter now false) w = Some q_strict
    /\ value_of (is_available_filter now true) w = Some q_lax
    /\ (Task_matches w q_strict t = true -> Task_matches w q_lax t = true)
    /\ (end_date t = None ->
        Task_matches w q_strict t = Task_matches w q_lax t).
Proof.
  eexists _, _. split; [apply is_available_filter_value |].
  split; [apply is_available_filter_value |].
  set (cmp := replace_hms0 (default (current_time w) now)).
  assert (Task_matches w (filter_comparing_with cmp false) t = true ->
          Task_matches w (filter_comparing_with cmp true) t = true) as Hmore.
  { rewrite !filter_comparing_with_matches.
    intros (? & ? & ? & _ & ?). repeat split; auto. discriminate. }
  split; [exact Hmore |].
  intros Hend.
  destruct (Task_matches w (filter_comparing_with cmp false) t) eqn:Hs.
  - symmetry. now apply Hmore.
  - symmetry. apply not_true_is_false. intros Hl.
    apply not_true_iff_false in Hs. apply Hs.
    apply filter_comparing_with_matches.
    apply filter_comparing_with_matches in Hl as (? & ? & ? & _ & ?).
    repeat split; auto. intros _ e He. congruence.
Qed.

(** X7: a task selected by the filter (without [allow_expired]) is available,
    by [is_available], at the time the filter compares with, and is neither
    taken nor completed. *)
Theorem selected_task_is_available_and_free
    (w : World) (now : option datetime) (t : Task) :
  exists q,
    value_of (is_available_filter now false) w = Some q
    /\ (Task_matches w q t = true ->
        (forall w0, current_time w0 = replace_hms0 (default (current_time w) now) ->
                    value_of (is_available t) w0 = Some true)
        /\ value_of (is_taken t) w = Some false
        /\ value_of (is_completed t) w = Some false).
Proof.
  eexists. split; [apply is_available_filter_value |].
  rewrite filter_comparing_with_matches.
  intros (Hd & Hi & Hs & He & Hatt). split; [| split].
  - intros w0 Hw0. rewrite value_of_is_available, Hw0. f_equal.
    apply available_at_true. repeat split; auto.
    intros e Hend. specialize (He eq_refl e Hend). lia.
  - destruct (is_taken_run_aux t w) as (b & Hb & Hiff).
    unfold value_of. rewrite Hb. simpl. f_equal.
    apply not_true_is_false. intros ->.
    destruct Hiff as [Hiff _]. destruct (Hiff eq_refl) as (Hrep & k & a & Ha & Ht & Hst).
    destruct Hatt as [Hr | Hno]; [congruence |].
    now destruct (Hno k a Ha Ht).
  - destruct (is_completed_run_aux t w) as (b & Hb & Hiff).
    unfold value_of. rewrite Hb. simpl. f_equal.
    apply not_true_is_false. intros ->.
    destruct Hiff as [Hiff _]. destruct (Hiff eq_refl) as (Hrep & k & a & Ha & Ht & Hst).
    destruct Hatt as [Hr | Hno]; [congruence |].
    now destruct (Hno k a Ha Ht).
Qed.

Lemma replace_hms0_fields (d : datetime) :
  dt_day (replace_hms0 d) = dt_day d
  /\ dt_microsecond (replace_hms0 d) = dt_microsecond d
  /\ dt_hour (replace_hms0 d) = 0 /\ dt_minute (replace_hms0 d) = 0
  /\ dt_second (replace_hms0 d) = 0.
Proof.
  unfold replace_hms0, mk_datetime, dt_day, dt_hour, dt_minute, dt_second,
    dt_microsecond, DAY, HOUR, MINUTE, SECOND.
  repeat split; Z.to_euclidean_division_equations; lia.
Qed.

(** X8: the time the filter compares with keeps the day and the microsecond
    field of the time it starts from and has hour, minute and second zero;
    it is never later than that time.  So the filters built from two instants
    are the same exactly when the instants agree on the day and on the
    microsecond field. *)
Theorem is_available_filter_same_day
    (w : World) (d1 d2 : datetime) (allow_expired : bool) :
  (dt_day (replace_hms0 d1) = dt_day d1
   /\ dt_microsecond (replace_hms0 d1) = dt_microsecond d1
   /\ dt_hour (replace_hms0 d1) = 0 /\ dt_minute (replace_hms0 d1) = 0
   /\ dt_second (replace_hms0 d1) = 0
   /\ replace_hms0 d1 <= d1)
  /\ (value_of (is_available_filter (Some d1) allow_expired) w
      = value_of (is_available_filter (Some d2) allow_expired) w
      <-> dt_day d1 = dt_day d2 /\ dt_microsecond d1 = dt_microsecond d2).
Proof.
  split.
  - pose proof (replace_hms0_fields d1) as (H1 & H2 & H3 & H4 & H5).
    repeat split; auto.
    unfold replace_hms0, mk_datetime, dt_day, dt_microsecond, DAY, HOUR, MINUTE, SECOND.
    Z.to_euclidean_division_equations. lia.
  - rewrite !is_available_filter_value. simpl default. split.
    + intros Heq.
      assert (replace_hms0 d1 = replace_hms0 d2) as Hr.
      { unfold filter_comparing_with in Heq. destruct allow_expired; cbn [negb] in Heq;
          injection Heq; auto. }
      pose proof (replace_hms0_fields d1) as (H1 & H2 & _).
      pose proof (replace_hms0_fields d2) as (H3 & H4 & _).
      rewrite Hr in H1, H2. split; congruence.
    + intros [Hday Hus]. unfold replace_hms0. now rewrite Hday, Hus.
Qed.

(** ** The sweeps, continued *)

Lemma size_filter_none {A} (P : nat * A -> Prop) `{!forall x, Decision (P x)}
    (m : gmap nat A) :
  (forall k x, m !! k = Some x -> ~ P (k, x)) -> size (filter P m) = 0%nat.
Proof.
  intros Hno. apply map_size_empty_iff, map_eq. intros k.
  rewrite lookup_empty. apply eq_None_not_Some. intros [x Hx].
  apply map_lookup_filter_Some in Hx as [Hx HP]. now apply (Hno k x).
Qed.

(** X9: after [close_stale_onetime_attempts] no attempt is left that is
    Started, on a one-time task, and created at or before the comparison
    date of the sweep; a second sweep that reads the same time from the clock
    closes nothing and returns 0. *)
Theorem close_stale_leaves_no_stale_attempt (w : World) :
  exists n w',
    close_stale_onetime_attempts w = Some (n, w')
    /\ (forall k a', attempt_table w' !! k = Some a' ->
          ~ (state a' = STARTED
             /\ created a' <= current_time w
                              - timedelta_days (TASK_ATTEMPT_EXPIRATION_DURATION w)
             /\ exists t, task_table w !! task a' = Some t /\ repeatable t = false))
    /\ (clock w (S (ticks w)) = clock w (ticks w) ->
        exists w'', close_stale_onetime_attempts w' = Some (0%nat, w'')
                    /\ attempt_table w'' = attempt_table w').
Proof.
  destruct (close_stale_onetime_attempts_run w)
    as (w' & Hrun & Htt & _ & Hck & Htk & Htab).
  eexists _, w'. split; [exact Hrun |].
  assert (forall k a', attempt_table w' !! k = Some a' -> stale_at w a' = false) as Hpost.
  { intros k a'. rewrite Htab, lookup_fmap.
    destruct (attempt_table w !! k) as [a|]; [| discriminate].
    simpl. intros [= <-]. destruct (stale_at w a) eqn:Hs; [| exact Hs].
    unfold stale_at. simpl. reflexivity. }
  split.
  - intros k a' Ha' Hst. apply stale_at_true in Hst.
    rewrite (Hpost k a' Ha') in Hst. discriminate.
  - intros Hsame.
    assert (forall a, stale_at w' a = stale_at w a) as Hst'.
    { assert (TASK_ATTEMPT_EXPIRATION_DURATION w' = TASK_ATTEMPT_EXPIRATION_DURATION w)
        as Hdur.
      { revert Hrun.
        cbv [close_stale_onetime_attempts bind timezone_now qs_update objects_filter
             settings_TASK_ATTEMPT_EXPIRATION_DURATION].
        intros Heq. injection Heq as <-. reflexivity. }
      intros a. unfold stale_at, current_time.
      now rewrite Htt, Hck, Htk, Hsame, Hdur. }
    destruct (close_stale_onetime_attempts_run w')
      as (w'' & Hrun' & _ & _ & _ & _ & Htab').
    exists w''. split.
    + rewrite Hrun'. do 2 f_equal. apply size_filter_none.
      intros k a' Ha'. simpl. rewrite Hst', (Hpost k a' Ha'). discriminate.
    + rewrite Htab'. apply map_eq. intros k. rewrite lookup_fmap.
      destruct (attempt_table w' !! k) as [a'|] eqn:Ha'; [| reflexivity].
      simpl. now rewrite Hst', (Hpost k a' Ha').
Qed.

(** X10: whatever the clock reads during [close_expired_task_attempts], a
    Started attempt on a draft or invalid task is closed (with the
    notification flag set), and a Started attempt on a task that is neither
    a draft nor invalid and has no dates is left as it is. *)
Theorem close_expired_whatever_the_clock (w : World) :
  wf_attempts w ->
  exists n w',
    close_expired_task_attempts w = Some (n, w')
    /\ forall k a t, attempt_table w !! k = Some a -> state a = STARTED ->
         task_table w !! task a = Some t ->
         (is_draft t = true \/ is_invalid t = true ->
            exists stamp,
              attempt_table w' !! k
              = Some (mkTaskAttempt (attempt_id a) (user a) (task a) CLOSED true
                                    (created a) stamp))
         /\ (is_draft t = false -> is_invalid t = false ->
             start_date t = None -> end_date t = None ->
             attempt_table w' !! k = Some a).
Proof.
  intros Hwf.
  destruct (close_expired_task_attempts_run w Hwf)
    as (n & w' & Hrun & _ & _ & _ & Hswept & _).
  exists n, w'. split; [exact Hrun |].
  intros k a t Ha Hst Ht. pose proof (Hwf k a Ha) as [Hk _].
  destruct (Hswept k a Ha Hst) as (t' & i & Ht' & _ & Hres).
  rewrite Ht in Ht'. injection Ht' as <-. rewrite Hk in Hres. split.
  - intros Hflag.
    assert (available_at (clock w i) t = false) as Hun.
    { unfold available_at. destruct Hflag as [-> | ->]; now rewrite ?orb_true_r. }
    destruct Hres as [[Hav _] | (_ & j & _ & Hres)]; [congruence |].
    now exists (clock w j).
  - intros Hd Hi Hs He.
    assert (available_at (clock w i) t = true) as Hav.
    { apply available_at_true. rewrite Hs, He. repeat split; auto; discriminate. }
    destruct Hres as [[_ Hres] | (Hun & _)]; [exact Hres | congruence].
Qed.

(** X10 for a draft, an invalid and a dateless task. *)
Lemma close_expired_whatever_the_clock_example :
  exists n w',
    close_expired_task_attempts world_three_tasks = Some (n, w')
    /\ forall k a t, attempt_table world_three_tasks !! k = Some a ->
         state a = STARTED ->
         task_table world_three_tasks !! task a = Some t ->
         (is_draft t = true \/ is_invalid t = true ->
            exists stamp,
              attempt_table w' !! k
              = Some (mkTaskAttempt (attempt_id a) (user a) (task a) CLOSED true
                                    (created a) stamp))
         /\ (is_draft t = false -> is_invalid t = false ->
             start_date t = None -> end_date t = None ->
             attempt_table w' !! k = Some a).
Proof.
  apply (close_expired_whatever_the_clock world_three_tasks).
  apply (bool_decide_unpack _). vm_compute. exact I.
Defined.

(** ** What the operations may do to an attempt *)

Lemma evolves_refl a : evolves a a.
Proof. now left. Qed.

Lemma evolves_close a : state a = STARTED -> evolves a (close_fields a).
Proof. intros Hs. right. split; [exact Hs |]. now destruct a. Qed.

Lemma evolves_trans a b c : evolves a b -> evolves b c -> evolves a c.
Proof.
  intros [-> | [Hs ->]] Hbc; [exact Hbc |].
  destruct Hbc as [-> | [Hs' _]]; [right; now split |].
  simpl in Hs'. discriminate.
Qed.

Lemma tables_evolve_refl w w' :
  attempt_table w' = attempt_table w -> tables_evolve w w'.
Proof.
  intros Heq k. rewrite Heq.
  destruct (attempt_table w !! k); constructor. apply evolves_refl.
Qed.

Lemma tables_evolve_trans w1 w2 w3 :
  tables_evolve w1 w2 -> tables_evolve w2 w3 -> tables_evolve w1 w3.
Proof.
  intros H12 H23 k. specialize (H12 k). specialize (H23 k).
  destruct H12 as [a b Hab|]; inversion H23; subst; constructor.
  eapply evolves_trans; eassumption.
Qed.

Lemma perform_evolves op w :
  wf_attempts w ->
  exists w', perform op w = Some (tt, w') /\ wf_attempts w' /\ tables_evolve w w'.
Proof.
  intros Hwf.
  destruct (perform_keeps_terminal op w Hwf) as (w' & Hrun & Hwf' & _).
  exists w'. split; [exact Hrun |]. split; [exact Hwf' |].
  destruct op as [t | t ks c | t | t | t u | t | t | now ae | | ]; cbn [perform] in Hrun.
  - (* Task.save *)
    destruct (Task_save_run t w) as (w1 & Hrun1 & _ & _ & _ & _ & Hat).
    rewrite Hrun in Hrun1. injection Hrun1 as <-.
    intros k. rewrite Hat.
    destruct (available_at (current_time w) t).
    + destruct (attempt_table w !! k); constructor. apply evolves_refl.
    + rewrite lookup_fmap. destruct (attempt_table w !! k) as [a|]; constructor.
      destruct (bool_decide (task a = task_id t)); simpl; [| apply evolves_refl].
      destruct (bool_decide_reflect (state a = STARTED));
        [now apply evolves_close | apply evolves_refl].
  - destruct (replace_keywords_frame t ks c w) as (w1 & Hrun1 & _ & Hat).
    rewrite Hrun in Hrun1. injection Hrun1 as <-. now apply tables_evolve_refl.
  - injection Hrun as <-. now apply tables_evolve_refl.
  - unfold discard, bind in Hrun. rewrite is_available_run in Hrun.
    injection Hrun as <-. apply tables_evolve_refl, after_is_available_tables.
  - unfold discard, bind in Hrun. rewrite is_available_to_user_run in Hrun.
    injection Hrun as <-. apply tables_evolve_refl, after_is_available_tables.
  - apply tables_evolve_refl. unfold discard, bind, is_taken in Hrun.
    destruct (repeatable t); simpl in Hrun; now injection Hrun as <-.
  - apply tables_evolve_refl. unfold discard, bind, is_completed in Hrun.
    destruct (repeatable t); simpl in Hrun; now injection Hrun as <-.
  - destruct (is_available_filter_run now ae w) as (q & w1 & Hrun1 & _ & Hat).
    unfold discard, bind in Hrun. rewrite Hrun1 in Hrun. injection Hrun as <-.
    now apply tables_evolve_refl.
  - destruct (close_stale_onetime_attempts_run w) as (w1 & Hrun1 & _ & _ & _ & _ & Hat).
    unfold discard, bind in Hrun. rewrite Hrun1 in Hrun. injection Hrun as <-.
    intros k. rewrite Hat, lookup_fmap.
    destruct (attempt_table w !! k) as [a|]; constructor.
    destruct (stale_at w a) eqn:Hs; [| apply evolves_refl].
    apply evolves_close. now apply stale_at_true in Hs.
  - destruct (close_expired_task_attempts_run w Hwf)
      as (n & w1 & Hrun1 & _ & Hnone & Hkeep & Hswept & _).
    unfold discard, bind in Hrun. rewrite Hrun1 in Hrun. injection Hrun as <-.
    intros k. destruct (attempt_table w !! k) as [a|] eqn:Ha.
    + destruct (Hwf k a Ha) as [Hk _].
      destruct (decide (state a = STARTED)) as [Hst | Hst].
      * destruct (Hswept k a Ha Hst) as (t & i & _ & _ & Hres).
        rewrite Hk in Hres.
        destruct Hres as [[_ ->] | (_ & j & _ & ->)]; constructor;
          [apply evolves_refl |].
        right. split; [exact Hst | reflexivity].
      * rewrite (Hkeep k a Ha Hst). constructor. apply evolves_refl.
    + rewrite (Hnone k Ha). constructor.
Qed.

(** X11: whatever sequence of operations of the module runs on well-formed
    tables, it runs to completion, the tables stay well-formed, no attempt is
    created or deleted, and each attempt either is exactly as before or was
    Started and is now Closed with the notification flag set, its primary
    key, user, task and creation time unchanged. *)
Theorem attempts_only_move_from_started_to_closed (w : World) (ops : list Operation) :
  wf_attempts w ->
  exists w',
    for_each ops perform w = Some (tt, w')
    /\ wf_attempts w'
    /\ (forall k, attempt_table w !! k = None <-> attempt_table w' !! k = None)
    /\ forall k a a', attempt_table w !! k = Some a -> attempt_table w' !! k = Some a' ->
         attempt_id a' = attempt_id a /\ user a' = user a /\ task a' = task a
         /\ created a' = created a
         /\ (a' = a
             \/ (state a = STARTED /\ state a' = CLOSED
                 /\ requires_notification a' = true)).
Proof.
  intros Hwf.
  assert (exists w', for_each ops perform w = Some (tt, w')
                     /\ wf_attempts w' /\ tables_evolve w w') as (w' & Hrun & Hwf' & Hev).
  { revert w Hwf. induction ops as [|op ops IH]; intros w Hwf.
    - exists w. split; [reflexivity |]. split; [exact Hwf |]. now apply tables_evolve_refl.
    - destruct (perform_evolves op w Hwf) as (w1 & Hrun1 & Hwf1 & Hev1).
      destruct (IH w1 Hwf1) as (w' & Hrun & Hwf' & Hev).
      exists w'. split; [cbn [for_each]; unfold bind; now rewrite Hrun1 |].
      split; [exact Hwf' |]. now apply (tables_evolve_trans w w1). }
  exists w'. split; [exact Hrun |]. split; [exact Hwf' |]. split.
  - intros k. specialize (Hev k). destruct Hev; split; congruence.
  - intros k a a' Ha Ha'. specialize (Hev k). rewrite Ha, Ha' in Hev.
    inversion Hev as [? ? [-> | [Hst Heq]] |]; subst.
    + repeat split; auto.
    + rewrite Heq. repeat split; auto.
Qed.

(** X11 for a save that invalidates the task followed by both sweeps. *)
Lemma attempts_only_move_from_started_to_closed_example :
  exists w',
    for_each [Op_Task_save invalid_task; Op_close_stale_onetime_attempts;
              Op_close_expired_task_attempts] perform world_four_attempts
    = Some (tt, w')
    /\ wf_attempts w'
    /\ (forall k, attempt_table world_four_attempts !! k = None
                  <-> attempt_table w' !! k = None)
    /\ forall k a a', attempt_table world_four_attempts !! k = Some a ->
         attempt_table w' !! k = Some a' ->
         attempt_id a' = attempt_id a /\ user a' = user a /\ task a' = task a
         /\ created a' = created a
         /\ (a' = a
             \/ (state a = STARTED /\ state a' = CLOSED
                 /\ requires_notification a' = true)).
Proof.
  apply (attempts_only_move_from_started_to_closed world_four_attempts).
  apply (bool_decide_unpack _). vm_compute. exact I.
Defined.

(** ** TaskAttempt.attempt_length_in_minutes, continued *)

Lemma tenths_of_monotone (m n : Z) : m <= n -> tenths_of m <= tenths_of n.
Proof.
  unfold tenths_of. intros Hmn.
  destruct (Z.leb_spec 0 m), (Z.leb_spec 0 n);
    Z.to_euclidean_division_equations; lia.
Qed.

Lemma tenths_of_opp (n : Z) : tenths_of (- n) = - tenths_of n.
Proof.
  unfold tenths_of.
  destruct (Z.leb_spec 0 n), (Z.leb_spec 0 (- n));
    Z.to_euclidean_division_equations; lia.
Qed.

Lemma whole_seconds_monotone (d1 d2 : datetime) :
  d1 <= d2 -> whole_seconds d1 <= whole_seconds d2.
Proof. intros H. unfold whole_seconds, SECOND. now apply Z.div_le_mono. Qed.

Lemma tenths_Qle (m n : Z) : m <= n -> (inject_Z m / inject_Z 10 <= inject_Z n / inject_Z 10)%Q.
Proof. intros H. unfold Qle, Qdiv, Qmult, Qinv, inject_Z. simpl. lia. Qed.


(** ** Task.replace_keywords, continued *)

Lemma replace_keywords_rows t keywords creator w :
  exists w',
    replace_keywords t keywords creator w = Some (tt, w')
    /\ exists rows,
         keyword_set_all t w' = Some (rows, w')
         /\ rows ≡ₚ new_keyword t creator <$> filter (fun s => s <> EmptyString) keywords.
Proof.
  unfold replace_keywords, bind, keyword_set_delete.
  set (m0 := filter (fun kv => keyword_task kv.2 <> task_id t) (keyword_table w)).
  destruct (add_keywords_spec t creator keywords (with_keyword_table m0 w))
    as (w' & Hrun & _ & _ & _ & _ & _ & _ & _ & Hnew).
  exists w'. split; [exact Hrun |]. simpl in Hnew.
  eexists. split; [reflexivity |].
  rewrite Hnew, filter_app.
  rewrite (filter_none _ (snd <$> map_to_list m0)).
  - rewrite app_nil_r. rewrite filter_all; [reflexivity |].
    intros kw Hkw. apply list_elem_of_fmap in Hkw as (name & -> & _). reflexivity.
  - intros kw Hkw. apply list_elem_of_fmap in Hkw as ([k kw'] & -> & Hk).
    apply elem_of_map_to_list in Hk. unfold m0 in Hk.
    apply map_lookup_filter_Some in Hk as [_ Hk]. simpl in *. tauto.
Qed.

(** X13: of two calls of [replace_keywords] on a task the last one wins: the
    keywords of the task are then those of the second list alone, with the
    second creator. *)
Theorem replace_keywords_last_call_wins
    (w : World) (t : Task) (first second : list string) (c1 c2 : User) :
  exists w',
    (let* _ := replace_keywords t first c1 in replace_keywords t second c2) w
    = Some (tt, w')
    /\ exists rows,
         keyword_set_all t w' = Some (rows, w')
         /\ rows ≡ₚ (fun name => mkTaskKeyword (task_id t) name c2)
                    <$> filter (fun s => s <> EmptyString) second.
Proof.
  destruct (replace_keywords_rows t first c1 w) as (w1 & Hrun1 & _).
  destruct (replace_keywords_rows t second c2 w1) as (w' & Hrun & Hrows).
  exists w'. split; [| exact Hrows]. unfold bind. now rewrite Hrun1.
Qed.

(** X14: a list that holds no string or only empty strings clears the
    keywords of the task: [keyword_set.all()] is then empty and
    [keywords_list] is the empty string. *)
Theorem replace_keywords_clears
    (w : World) (t : Task) (keywords : list string) (creator : User) :
  Forall (fun s => s = EmptyString) keywords ->
  exists w',
    replace_keywords t keywords creator w = Some (tt, w')
    /\ keyword_set_all t w' = Some ([], w')
    /\ keywords_list t w' = Some (EmptyString, w').
Proof.
  intros Hall.
  destruct (replace_keywords_rows t keywords creator w) as (w' & Hrun & rows & Hrows & Hperm).
  rewrite filter_none in Hperm.
  - apply Permutation_nil_r in Hperm. subst rows.
    exists w'. split; [exact Hrun |]. split; [exact Hrows |].
    unfold keywords_list, bind. now rewrite Hrows.
  - intros s Hs. rewrite Forall_forall in Hall. intros Hne. apply Hne, Hall, Hs.
Qed.

(** X14 for a list of two empty strings, on a task that had keywords. *)
Lemma replace_keywords_clears_example :
  exists w',
    replace_keywords one_time_task [EmptyString; EmptyString] 7%nat
      (with_keyword_table {[ 5%nat := mkTaskKeyword 1 "css" 7%nat ]} world_started_by_7)
    = Some (tt, w')
    /\ keyword_set_all one_time_task w' = Some ([], w')
    /\ keywords_list one_time_task w' = Some (EmptyString, w').
Proof.
  apply (replace_keywords_clears _ one_time_task [EmptyString; EmptyString] 7%nat).
  repeat constructor.
Defined.

(** ** Labels *)

(** X15: the label of an invalidation criterion is
    [field_name relation field_value] with [==] or [!=] for the relation; it
    raises [KeyError] for a relation that is neither [EQUAL] nor [NOT_EQUAL],
    and [UnicodeEncodeError], before the relation is looked at, for a field
    name with a character outside ASCII. *)
Theorem TaskInvalidationCriterion_unicode_cases (self : TaskInvalidationCriterion) :
  (all_ascii (field_name self) = true -> relation self = EQUAL ->
   TaskInvalidationCriterion_unicode self
   = Ok (field_name self +:+ " == " +:+ field_value self))
  /\ (all_ascii (field_name self) = true -> relation self = NOT_EQUAL ->
      TaskInvalidationCriterion_unicode self
      = Ok (field_name self +:+ " != " +:+ field_value self))
  /\ (all_ascii (field_name self) = true ->
      relation self <> EQUAL -> relation self <> NOT_EQUAL ->
      TaskInvalidationCriterion_unicode self = Raise KeyError)
  /\ (all_ascii (field_name self) = false ->
      TaskInvalidationCriterion_unicode self = Raise UnicodeEncodeError).
Proof.
  unfold TaskInvalidationCriterion_unicode, py_str, getitem, choices.
  split; [| split; [| split]].
  - intros -> ->. reflexivity.
  - intros -> ->. reflexivity.
  - intros -> H0 H1. simpl.
    rewrite lookup_insert_ne by congruence.
    rewrite lookup_singleton_ne by congruence. reflexivity.
  - intros ->. reflexivity.
Qed.

(** X16: the label of a bug is [Bug] followed by its number in decimal, and
    two bugs have the same label exactly when they have the same number. *)
Theorem BugzillaBug_unicode_inj (b1 b2 : BugzillaBug) :
  BugzillaBug_unicode b1 = "Bug " +:+ pretty (bugzilla_id b1)
  /\ (BugzillaBug_unicode b1 = BugzillaBug_unicode b2
      <-> bugzilla_id b1 = bugzilla_id b2).
Proof.
  split; [reflexivity |]. unfold BugzillaBug_unicode. simpl. split.
  - intros H. apply (inj (String.app _)) in H. apply (inj (String.app _)) in H.
    now apply (inj pretty) in H.
  - now intros ->.
Qed.

(** ** Feedback *)

(** X17: when no two feedback rows belong to the same attempt, neither
    [has_feedback] nor [feedback_display] raises: either the attempt has a
    feedback row, [has_feedback] is true and [feedback_display] is its text,
    or it has none, [has_feedback] is false and [feedback_display] is the
    translated placeholder. *)
Theorem feedback_display_cases
    (gettext : string -> string) (feedbacks : gmap nat Feedback) (self : TaskAttempt) :
  (forall k1 k2 f1 f2, feedbacks !! k1 = Some f1 -> feedbacks !! k2 = Some f2 ->
     feedback_attempt f1 = feedback_attempt f2 -> k1 = k2) ->
  (exists k f, feedbacks !! k = Some f /\ feedback_attempt f = attempt_id self
               /\ has_feedback feedbacks self = Ok true
               /\ feedback_display gettext feedbacks self = Ok (feedback_text f))
  \/ ((forall k f, feedbacks !! k = Some f -> feedback_attempt f <> attempt_id self)
      /\ has_feedback feedbacks self = Ok false
      /\ feedback_display gettext feedbacks self
         = Ok (gettext "No feedback for this attempt")).
Proof.
  intros Huniq.
  unfold feedback_display, has_feedback, attempt_feedback.
  set (M := filter (fun kv => feedback_attempt kv.2 = attempt_id self) feedbacks).
  assert (forall k f, (k, f) ∈ map_to_list M <->
            feedbacks !! k = Some f /\ feedback_attempt f = attempt_id self) as HM.
  { intros k f. unfold M. now rewrite elem_of_map_to_list, map_lookup_filter_Some. }
  pose proof (NoDup_fst_map_to_list M) as Hnd.
  destruct (map_to_list M) as [|[k f] [|[k2 f2] l]]; simpl.
  - right. split; [| now split].
    intros k f Hk Hf. assert ((k, f) ∈ @nil (nat * Feedback)) as Hin by (apply HM; auto).
    inversion Hin.
  - left. exists k, f. destruct (HM k f) as [[Hk Hf] _]; [left |]. auto.
  - exfalso.
    destruct (HM k f) as [[Hk Hf] _]; [left |].
    destruct (HM k2 f2) as [[Hk2 Hf2] _]; [right; left |].
    assert (k = k2) as -> by (apply (Huniq k k2 f f2); congruence).
    simpl in Hnd. apply NoDup_cons in Hnd as [Hnd _]. apply Hnd. left.
Qed.

(** X17 for a table with one feedback row, on attempt 1. *)
Lemma feedback_display_cases_example :
  (exists k f, ({[ 4%nat := mkFeedback 1 "fun" ]} : gmap nat Feedback) !! k = Some f
               /\ feedback_attempt f = attempt_id started_by_7
               /\ has_feedback {[ 4%nat := mkFeedback 1 "fun" ]} started_by_7 = Ok true
               /\ feedback_display (fun s => s) {[ 4%nat := mkFeedback 1 "fun" ]} started_by_7
                  = Ok (feedback_text f))
  \/ ((forall k f, ({[ 4%nat := mkFeedback 1 "fun" ]} : gmap nat Feedback) !! k = Some f ->
                   feedback_attempt f <> attempt_id started_by_7)
      /\ has_feedback {[ 4%nat := mkFeedback 1 "fun" ]} started_by_7 = Ok false
      /\ feedback_display (fun s => s) {[ 4%nat := mkFeedback 1 "fun" ]} started_by_7
         = Ok ((fun s => s) "No feedback for this attempt")).
Proof.
  apply (feedback_display_cases (fun s => s) {[ 4%nat := mkFeedback 1 "fun" ]} started_by_7).
  intros k1 k2 f1 f2 H1 H2 _.
  apply lookup_singleton_Some in H1 as [<- _].
  apply lookup_singleton_Some in H2 as [<- _]. reflexivity.
Defined.

(** ** Widgets *)

Lemma with_datepicker_lookup (attrs : gmap string string) (k : string) :
  with_datepicker attrs !! k
  = if decide (k = "class") then Some (default "datepicker" (attrs !! "class"))
    else attrs !! k.
Proof.
  unfold with_datepicker. destruct (bool_decide_reflect ("class" ∈ dom attrs)) as [Hin | Hin].
  - apply elem_of_dom in Hin as [c Hc]. destruct (decide (k = "class")) as [-> |]; [| done].
    now rewrite Hc.
  - apply not_elem_of_dom in Hin. destruct (decide (k = "class")) as [-> | Hne].
    + now rewrite lookup_insert_eq, Hin.
    + now rewrite lookup_insert_ne.
Qed.

Lemma with_datepicker_idem (attrs : gmap string string) :
  with_datepicker (with_datepicker attrs) = with_datepicker attrs.
Proof.
  apply map_eq. intros k. rewrite !with_datepicker_lookup.
  destruct (decide (k = "class")); [| done].
  now destruct (attrs !! "class").
Qed.

(** X18: [CalendarInput.render] hands the inherited [render] a dictionary
    that always has a [class]: the caller's own if there is one, and
    [datepicker] otherwise; every other attribute is passed on as given.
    With [attrs] left out, the dictionary used is the default of the function,
    which keeps the [class] it was given by the first such call and is not
    changed by later ones; a caller's dictionary does not change that
    default, and [None] raises [TypeError]. *)
Theorem CalendarInput_render_class
    (DateInput_render : string -> string -> gmap string string -> string)
    (shared : gmap string string) (name value : string) :
  (forall d, exists passed,
     CalendarInput_render DateInput_render shared name value (attrs_dict d)
     = (Ok (DateInput_render name value passed), shared)
     /\ passed !! "class" = Some (default "datepicker" (d !! "class"))
     /\ forall k, k <> "class" -> passed !! k = d !! k)
  /\ (exists shared',
        CalendarInput_render DateInput_render shared name value attrs_omitted
        = (Ok (DateInput_render name value shared'), shared')
        /\ shared' !! "class" = Some (default "datepicker" (shared !! "class"))
        /\ (forall k, k <> "class" -> shared' !! k = shared !! k)
        /\ CalendarInput_render DateInput_render shared' name value attrs_omitted
           = (Ok (DateInput_render name value shared'), shared'))
  /\ CalendarInput_render DateInput_render shared name value attrs_None
     = (Raise TypeError, shared).
Proof.
  split; [| split; [| reflexivity]].
  - intros d. exists (with_datepicker d). split; [reflexivity |]. split.
    + rewrite with_datepicker_lookup. now destruct (decide _).
    + intros k Hk. rewrite with_datepicker_lookup. now destruct (decide _).
  - exists (with_datepicker shared). split; [reflexivity |]. split; [| split].
    + rewrite with_datepicker_lookup. now destruct (decide _).
    + intros k Hk. rewrite with_datepicker_lookup. now destruct (decide _).
    + unfold CalendarInput_render. now rewrite with_datepicker_idem.
Qed.

Lemma prefix_app (old s : string) :
  String.prefix old s = true <-> exists rest, s = old +:+ rest.
Proof.
  revert s. induction old as [|a old IH]; intros s.
  - destruct s; simpl; split; eauto.
  - destruct s as [|b s]; simpl.
    + split; [discriminate |]. intros [rest Hrest].
      change (EmptyString = String a (old +:+ rest)) in Hrest. discriminate.
    + destruct (Ascii.ascii_dec a b) as [-> | Hne].
      * rewrite IH. split; intros [rest Hrest]; exists rest.
        -- now rewrite Hrest.
        -- change (String b s = String b (old +:+ rest)) in Hrest. congruence.
      * split; [discriminate |]. intros [rest Hrest].
        change (String b s = String a (old +:+ rest)) in Hrest. congruence.
Qed.

Lemma replace_scan_sublist (old : string) (s : string) : forall skip,
  chars (replace_scan old "" skip s) `sublist_of` chars s.
Proof.
  induction s as [|c s IH]; intros skip; cbn [replace_scan chars]; [constructor |].
  destruct skip as [|n].
  - destruct (String.prefix old (String c s)).
    + apply sublist_cons. exact (IH _).
    + cbn [chars]. apply sublist_skip, IH.
  - apply sublist_cons, IH.
Qed.

Lemma replace_scan_absent (old new : string) (s : string) :
  ~ occurs old s -> replace_scan old new 0 s = s.
Proof.
  induction s as [|c s IH]; intros Hno; cbn [replace_scan]; [reflexivity |].
  destruct (String.prefix old (String c s)) eqn:Hp.
  - exfalso. apply Hno. apply prefix_app in Hp as [rest Hrest].
    exists EmptyString, rest. exact Hrest.
  - f_equal. apply IH. intros (before & after & ->).
    apply Hno. now exists (String c before), after.
Qed.

Lemma chars_length (s : string) : length (chars s) = String.length s.
Proof. induction s; simpl; congruence. Qed.

(** X19: [HorizCheckboxSelect.render] only deletes characters of the
    inherited output: what it returns is a subsequence of that output, never
    longer, and an output in which none of [<ul>], [</ul>], [<li>] and
    [</li>] occurs is returned as it is. *)
Theorem HorizCheckboxSelect_render_only_deletes (output : string) :
  chars (HorizCheckboxSelect_render output) `sublist_of` chars output
  /\ (String.length (HorizCheckboxSelect_render output) <= String.length output)%nat
  /\ (~ occurs "<ul>" output -> ~ occurs "</ul>" output ->
      ~ occurs "<li>" output -> ~ occurs "</li>" output ->
      HorizCheckboxSelect_render output = output).
Proof.
  assert (chars (HorizCheckboxSelect_render output) `sublist_of` chars output) as Hsub.
  { unfold HorizCheckboxSelect_render, py_replace.
    etransitivity; [apply replace_scan_sublist |].
    etransitivity; [apply replace_scan_sublist |].
    etransitivity; [apply replace_scan_sublist |].
    apply replace_scan_sublist. }
  split; [exact Hsub |]. split.
  - rewrite <- !chars_length. now apply sublist_length.
  - intros H1 H2 H3 H4. unfold HorizCheckboxSelect_render, py_replace.
    rewrite (replace_scan_absent "<ul>" _ output H1).
    rewrite (replace_scan_absent "</ul>" _ output H2).
    rewrite (replace_scan_absent "<li>" _ output H3).
    exact (replace_scan_absent "</li>" _ output H4).
Qed.
